(** * The document manager and the session observer, verified

    A shallow embedding of [src/components/documents/DocumentManager.tsx]
    and of the [AppContent] component of the application shell.

    JavaScript strings are sequences of UTF-16 code units, remote calls are
    the nodes of an interaction tree whose answers the backend chooses, the
    [useState] cells of a component are a record, and an event handler is a
    program built from the values its closure captured at render time. *)

From Stdlib Require Import List NArith Bool String Ascii Arith Lia.
Import ListNotations.

Set Implicit Arguments.

(** ** JavaScript strings *)

Module Js.

(** A string is the list of its UTF-16 code units. *)
Definition str := list N.

(** An ASCII literal of the source. *)
Definition lit (s : string) : str :=
  map N_of_ascii (list_ascii_of_string s).

Fixpoint eqb (a b : str) : bool :=
  match a, b with
  | [], [] => true
  | x :: a', y :: b' => N.eqb x y && eqb a' b'
  | _, _ => false
  end.

(** [s1 + s2]. *)
Definition concat (a b : str) : str := a ++ b.

(** The code units [String.prototype.trim] strips: ECMAScript's WhiteSpace
    (TAB, VT, FF, ZWNBSP and the space separators) and LineTerminator
    (LF, CR, LS, PS). *)
Definition is_white_space (c : N) : bool :=
  (N.eqb c 0x09 || N.eqb c 0x0A || N.eqb c 0x0B || N.eqb c 0x0C ||
   N.eqb c 0x0D || N.eqb c 0x20 || N.eqb c 0xA0 || N.eqb c 0x1680 ||
   (N.leb 0x2000 c && N.leb c 0x200A) ||
   N.eqb c 0x2028 || N.eqb c 0x2029 || N.eqb c 0x202F ||
   N.eqb c 0x205F || N.eqb c 0x3000 || N.eqb c 0xFEFF)%bool.

Fixpoint trimStart (s : str) : str :=
  match s with
  | [] => []
  | c :: s' => if is_white_space c then trimStart s' else s
  end.

Definition trimEnd (s : str) : str := rev (trimStart (rev s)).

Definition trim (s : str) : str := trimEnd (trimStart s).

(** ToBoolean on a string: only the empty string is falsy. *)
Definition truthy (s : str) : bool :=
  match s with [] => false | _ :: _ => true end.

(** [s.substring(i, j)] for non-negative integer arguments: both are
    clamped to the length, and swapped when [i > j]. *)
Definition substring (s : str) (i j : nat) : str :=
  let len := List.length s in
  let a := Nat.min i len in
  let b := Nat.min j len in
  firstn (Nat.max a b - Nat.min a b) (skipn (Nat.min a b) s).

(** [a || b] on a possibly-null string. *)
Definition or_else (a : option str) (b : str) : str :=
  match a with
  | Some s => if truthy s then s else b
  | None => b
  end.

(** A thrown value, as far as the handlers look at it: [error.message]. *)
Record Error := { message : str }.

(** How an awaited promise settles. *)
Inductive Settled (X : Type) :=
| Fulfilled (x : X)
| Rejected (e : Error).
Arguments Rejected {X} e.

(** The completion of a statement list: it runs to its end, executes
    [return;], or throws. *)
Inductive Completion (A : Type) :=
| Normal (a : A)
| Return
| Throw (e : Error).
Arguments Return {A}.
Arguments Throw {A} e.

(** The engine's TypeError for a property read on [null] or [undefined].
    Its wording is the engine's; the handlers only pass it on. *)
Definition TypeError (base prop : string) : Error :=
  {| message := lit "Cannot read properties of " ++ lit base
                  ++ lit " (reading '" ++ lit prop ++ lit "')" |}.

End Js.

Import Js.

(** ** The backend client's answers *)

(** The client's response objects are the union
    [{data: T, error: null} | {data: null, error: E}]. *)
Inductive Response (T : Type) :=
| Success (data : T)
| Failure (error : Error).
Arguments Failure {T} error.

(** The [data] field. *)
Definition data {T} (r : Response T) : option T :=
  match r with Success d => Some d | Failure _ => None end.

(** The [error] field. *)
Definition error {T} (r : Response T) : option Error :=
  match r with Success _ => None | Failure e => Some e end.

(** [x | null] nested in a nullable field reads as a single nullable. *)
Definition flatten {T} (o : option (option T)) : option T :=
  match o with Some x => x | None => None end.

(** ** Data model *)

(** Modelled from the spec: the row types [Tables<'documents'>] and the
    rows of [integrations] and [owner_privileges] are declared in the
    generated backend types, which are not among the sources; the fields
    are those the spec's data model lists and the component reads.
    [is_integration] is the truthiness of [(doc as any).is_integration]. *)
Record Document := {
  id : str;
  title : option str;
  content : option str;
  team_id : str;
  owner_id : str;
  updated_at : option str;
  is_integration : bool
}.

(** Modelled from the spec: a row of [integrations] (identifier, team
    identifier, integration type); the component reads [id] and
    [integration_type]. *)
Record Integration := {
  integration_id : str;
  integration_team_id : str;
  integration_type : str
}.

(** Modelled from the spec: a row of [owner_privileges], keyed by email;
    the component only tests that one came back. *)
Record OwnerPrivilege := { owner_email : str }.

(** The auth client's [User] and [Session], as far as they are read:
    [user.id], [user?.email] and [session?.user]. *)
Record User := {
  user_id : str;
  email : option str
}.

Record Session := { session_user : User }.

(** The JSON a remote function answers with, as far as it is read. *)
Record SubscriptionCheck := { subscribed : bool }.
Record SummaryResponse := { summary : option str }.

(** ** Remote calls *)

(** One constructor per call the document manager makes, indexed by the
    type of the awaited value. *)
Inductive Remote : Type -> Type :=
| documents_select (teamId : str) :
    Remote (Response (option (list Document)))
| integrations_select (teamId : str) :
    Remote (Response (option (list Integration)))
| documents_insert (title content teamId ownerId : str) :
    Remote (Response Document)
| documents_update (title content : option str) (docId : str) :
    Remote (Response unit)
| documents_delete (docId : str) :
    Remote (Response unit)
| auth_getUser :
    Remote (Response User)
| owner_privileges_maybeSingle (email : str) :
    Remote (Response (option OwnerPrivilege))
| invoke_check_subscription :
    Remote (Response (option SubscriptionCheck))
| invoke_ai_summarize (content title : option str) :
    Remote (Response (option SummaryResponse)).

(** A call as it appears in the network log. *)
Inductive Call :=
| call (X : Type) (r : Remote X).
Arguments call {X} r.

(** The backend seen from one handler run: an answer for every call. *)
Definition Oracle := forall X, Remote X -> Settled X.

(** ** Component state and effects *)

Inductive Variant := default | destructive.

(** The argument of [toast({...})]; a toast without [variant] has [None]. *)
Record Toast := {
  toast_title : str;
  description : str;
  variant : option Variant
}.

(** What the content viewer dialog reads of its [any]-typed value. *)
Record ViewedContent := {
  viewed_title : str;
  viewed_source : str;
  viewed_type : str;
  viewed_content : str;
  viewed_url : option str
}.

(** The [useState] cells of [DocumentManager]. *)
Record State := {
  documents : list Document;
  integrations : list Integration;
  isLoading : bool;
  editingDoc : option Document;
  newDocTitle : str;
  newDocContent : str;
  isCreateDialogOpen : bool;
  isSummarizing : option str;
  viewingContent : option ViewedContent
}.

(** The initial values passed to [useState]. *)
Definition initial_state : State :=
  {| documents := []; integrations := []; isLoading := true;
     editingDoc := None; newDocTitle := []; newDocContent := [];
     isCreateDialogOpen := false; isSummarizing := None;
     viewingContent := None |}.

(** The synchronous effects of a handler: the state setters, [toast] and
    [console.error]. *)
Inductive Action :=
| setDocuments (v : list Document)
| setIntegrations (v : list Integration)
| setIsLoading (v : bool)
| setEditingDoc (v : option Document)
| setNewDocTitle (v : str)
| setNewDocContent (v : str)
| setIsCreateDialogOpen (v : bool)
| setIsSummarizing (v : option str)
| setViewingContent (v : option ViewedContent)
| toast (t : Toast)
| console_error (label : str) (e : Error).

Definition apply_setter (a : Action) (s : State) : State :=
  match a with
  | setDocuments v =>
      {| documents := v; integrations := integrations s;
         isLoading := isLoading s; editingDoc := editingDoc s;
         newDocTitle := newDocTitle s; newDocContent := newDocContent s;
         isCreateDialogOpen := isCreateDialogOpen s;
         isSummarizing := isSummarizing s;
         viewingContent := viewingContent s |}
  | setIntegrations v =>
      {| documents := documents s; integrations := v;
         isLoading := isLoading s; editingDoc := editingDoc s;
         newDocTitle := newDocTitle s; newDocContent := newDocContent s;
         isCreateDialogOpen := isCreateDialogOpen s;
         isSummarizing := isSummarizing s;
         viewingContent := viewingContent s |}
  | setIsLoading v =>
      {| documents := documents s; integrations := integrations s;
         isLoading := v; editingDoc := editingDoc s;
         newDocTitle := newDocTitle s; newDocContent := newDocContent s;
         isCreateDialogOpen := isCreateDialogOpen s;
         isSummarizing := isSummarizing s;
         viewingContent := viewingContent s |}
  | setEditingDoc v =>
      {| documents := documents s; integrations := integrations s;
         isLoading := isLoading s; editingDoc := v;
         newDocTitle := newDocTitle s; newDocContent := newDocContent s;
         isCreateDialogOpen := isCreateDialogOpen s;
         isSummarizing := isSummarizing s;
         viewingContent := viewingContent s |}
  | setNewDocTitle v =>
      {| documents := documents s; integrations := integrations s;
         isLoading := isLoading s; editingDoc := editingDoc s;
         newDocTitle := v; newDocContent := newDocContent s;
         isCreateDialogOpen := isCreateDialogOpen s;
         isSummarizing := isSummarizing s;
         viewingContent := viewingContent s |}
  | setNewDocContent v =>
      {| documents := documents s; integrations := integrations s;
         isLoading := isLoading s; editingDoc := editingDoc s;
         newDocTitle := newDocTitle s; newDocContent := v;
         isCreateDialogOpen := isCreateDialogOpen s;
         isSummarizing := isSummarizing s;
         viewingContent := viewingContent s |}
  | setIsCreateDialogOpen v =>
      {| documents := documents s; integrations := integrations s;
         isLoading := isLoading s; editingDoc := editingDoc s;
         newDocTitle := newDocTitle s; newDocContent := newDocContent s;
         isCreateDialogOpen := v;
         isSummarizing := isSummarizing s;
         viewingContent := viewingContent s |}
  | setIsSummarizing v =>
      {| documents := documents s; integrations := integrations s;
         isLoading := isLoading s; editingDoc := editingDoc s;
         newDocTitle := newDocTitle s; newDocContent := newDocContent s;
         isCreateDialogOpen := isCreateDialogOpen s;
         isSummarizing := v;
         viewingContent := viewingContent s |}
  | setViewingContent v =>
      {| documents := documents s; integrations := integrations s;
         isLoading := isLoading s; editingDoc := editingDoc s;
         newDocTitle := newDocTitle s; newDocContent := newDocContent s;
         isCreateDialogOpen := isCreateDialogOpen s;
         isSummarizing := isSummarizing s;
         viewingContent := v |}
  | toast _ | console_error _ _ => s
  end.

(** Everything a test of the component can observe: the state cells, the
    notifications shown, the console, the calls that went out, and the
    exceptions no handler caught. *)
Record World := {
  state : State;
  toasts : list Toast;
  console : list (str * Error);
  network : list Call;
  unhandled : list Error
}.

Definition initial_world : World :=
  {| state := initial_state; toasts := []; console := []; network := [];
     unhandled := [] |}.

Definition perform (a : Action) (w : World) : World :=
  {| state := apply_setter a (state w);
     toasts := match a with toast t => toasts w ++ [t] | _ => toasts w end;
     console := match a with
                | console_error l e => console w ++ [(l, e)]
                | _ => console w
                end;
     network := network w;
     unhandled := unhandled w |}.

Definition send {X} (r : Remote X) (w : World) : World :=
  {| state := state w; toasts := toasts w; console := console w;
     network := network w ++ [call r]; unhandled := unhandled w |}.

Definition crash (e : Error) (w : World) : World :=
  {| state := state w; toasts := toasts w; console := console w;
     network := network w; unhandled := unhandled w ++ [e] |}.

(** ** Handlers as interaction trees *)

(** An [async] function body: it finishes with a completion, performs a
    synchronous effect, or awaits a remote call and continues with however
    the promise settles. *)
Inductive Prog (A : Type) : Type :=
| Done (c : Completion A)
| Do (a : Action) (k : Prog A)
| Await (X : Type) (r : Remote X) (k : Settled X -> Prog A).
Arguments Await {A X} r k.
Arguments Do {A} a k.

Fixpoint bind {A B} (p : Prog A) (f : A -> Prog B) : Prog B :=
  match p with
  | Done (Normal a) => f a
  | Done Return => Done Return
  | Done (Throw e) => Done (Throw e)
  | Do a k => Do a (bind k f)
  | Await r k => Await r (fun x => bind (k x) f)
  end.

Declare Scope prog_scope.
Delimit Scope prog_scope with prog.
Bind Scope prog_scope with Prog.
Notation "x <- p ;; q" := (bind p (fun x => q))
  (at level 61, p at next level, right associativity) : prog_scope.
Notation "p ;; q" := (bind p (fun _ => q))
  (at level 61, right associativity) : prog_scope.
Local Open Scope prog_scope.

Definition skip : Prog unit := Done (Normal tt).
Definition return_ {A} : Prog A := Done Return.
Definition throw {A} (e : Error) : Prog A := Done (Throw e).
Definition act (a : Action) : Prog unit := Do a skip.

(** [await call]: a rejected promise throws at the await. *)
Definition await {X} (r : Remote X) : Prog X :=
  Await r (fun s =>
    match s with
    | Fulfilled x => Done (Normal x)
    | Rejected e => throw e
    end).

(** [if (error) throw error;] *)
Definition throw_if (e : option Error) : Prog unit :=
  match e with Some err => throw err | None => skip end.

(** [try { body } catch (error) { handler error }] *)
Fixpoint try_catch {A} (body : Prog A) (handler : Error -> Prog A) : Prog A :=
  match body with
  | Done (Throw e) => handler e
  | Done c => Done c
  | Do a k => Do a (try_catch k handler)
  | Await r k => Await r (fun x => try_catch (k x) handler)
  end.

(** [try { body } finally { finalizer }]: the finalizer runs on every
    completion of the body, and the body's completion stands unless the
    finalizer itself completes abruptly. *)
Fixpoint try_finally {A} (body : Prog A) (finalizer : Prog unit) : Prog A :=
  match body with
  | Done c => finalizer ;; Done c
  | Do a k => Do a (try_finally k finalizer)
  | Await r k => Await r (fun x => try_finally (k x) finalizer)
  end.

(** The boundary of a function whose result nobody reads: [return;] and
    falling off the end are the same. *)
Fixpoint function (body : Prog unit) : Prog unit :=
  match body with
  | Done Return => skip
  | Done c => Done c
  | Do a k => Do a (function k)
  | Await r k => Await r (fun x => function (k x))
  end.

(** One handler run against a backend: every await is answered at once. *)
Fixpoint run (O : Oracle) {A} (p : Prog A) (w : World) : Completion A * World :=
  match p with
  | Done c => (c, w)
  | Do a k => run O k (perform a w)
  | Await r k => run O (k (O _ r)) (send r w)
  end.

(** ** [DocumentManager] *)

Record Props := {
  user : User;
  teamId : str
}.

(** [data || []] *)
Definition or_empty {T} (d : option (list T)) : list T :=
  match d with Some l => l | None => [] end.

Section DocumentManager.

(** The props and the state cells of the render whose closures the handlers
    are: a setter call does not change what a running handler reads. *)
Variable props : Props.
Variable snap : State.

Definition loadDocuments : Prog unit :=
  function (
    (if negb (truthy (teamId props)) then return_ else skip) ;;
    try_finally
      (try_catch
         (r <- await (documents_select (teamId props)) ;;
          throw_if (error r) ;;
          act (setDocuments (or_empty (flatten (data r)))))
         (fun error =>
            act (toast {| toast_title := lit "Error loading documents";
                          description := message error;
                          variant := Some destructive |})))
      (act (setIsLoading false))).

Definition loadIntegrations : Prog unit :=
  function (
    (if negb (truthy (teamId props)) then return_ else skip) ;;
    try_catch
      (r <- await (integrations_select (teamId props)) ;;
       throw_if (error r) ;;
       act (setIntegrations (or_empty (flatten (data r)))))
      (fun error =>
         act (console_error (lit "Error loading integrations:") error))).

Definition createDocument : Prog unit :=
  function (
    (if negb (truthy (trim (newDocTitle snap))) then return_ else skip) ;;
    try_catch
      (r <- await (documents_insert (newDocTitle snap) (newDocContent snap)
                     (teamId props) (user_id (user props))) ;;
       match r with
       | Failure error => throw error
       | Success data =>
           act (setDocuments (data :: documents snap)) ;;
           act (setNewDocTitle (lit "")) ;;
           act (setNewDocContent (lit "")) ;;
           act (setIsCreateDialogOpen false) ;;
           act (toast {| toast_title := lit "Document created";
                         description :=
                           lit "Your document has been created successfully.";
                         variant := None |})
       end)
      (fun error =>
         act (toast {| toast_title := lit "Error creating document";
                       description := message error;
                       variant := Some destructive |}))).

Definition updateDocument (doc : Document) : Prog unit :=
  function (
    try_catch
      (r <- await (documents_update (title doc) (content doc) (id doc)) ;;
       throw_if (error r) ;;
       act (setDocuments
              (map (fun d => if eqb (id d) (id doc) then doc else d)
                   (documents snap))) ;;
       act (setEditingDoc None) ;;
       act (toast {| toast_title := lit "Document updated";
                     description := lit "Your document has been saved.";
                     variant := None |}))
      (fun error =>
         act (toast {| toast_title := lit "Error updating document";
                       description := message error;
                       variant := Some destructive |}))).

Definition deleteDocument (docId : str) : Prog unit :=
  function (
    try_catch
      (r <- await (documents_delete docId) ;;
       throw_if (error r) ;;
       act (setDocuments
              (filter (fun d => negb (eqb (id d) docId)) (documents snap))) ;;
       act (toast {| toast_title := lit "Document deleted";
                     description := lit "Your document has been deleted.";
                     variant := None |}))
      (fun error =>
         act (toast {| toast_title := lit "Error deleting document";
                       description := message error;
                       variant := Some destructive |}))).

(** The notification of the payment gate. *)
Definition upsell : Toast :=
  {| toast_title := lit "AI Summary (Premium Feature)";
     description :=
       lit "Upgrade to Premium to access AI-powered document summaries.";
     variant := Some default |}.

(** [user?.email || ''] *)
Definition email_or_empty (u : option User) : str :=
  or_else (match u with Some u' => email u' | None => None end) (lit "").

(** [!!ownerData] *)
Definition isOwner (ownerData : option OwnerPrivilege) : bool :=
  match ownerData with Some _ => true | None => false end.

(** [subscriptionCheck?.subscribed], as a condition. *)
Definition is_subscribed (subscriptionCheck : option SubscriptionCheck) : bool :=
  match subscriptionCheck with Some c => subscribed c | None => false end.

(** [summaryResponse.summary.substring(0, 150) + "..."], which throws a
    TypeError when the response or its summary is missing. *)
Definition preview (summaryResponse : option SummaryResponse) : Prog str :=
  match summaryResponse with
  | None => throw (TypeError "null" "summary")
  | Some resp =>
      match summary resp with
      | None => throw (TypeError "undefined" "substring")
      | Some s => Done (Normal (concat (substring s 0 150) (lit "...")))
      end
  end.

Definition generateSummary (doc : Document) : Prog unit :=
  function (
    act (setIsSummarizing (Some (id doc))) ;;
    try_finally
      (try_catch
         (u <- await auth_getUser ;;
          o <- await (owner_privileges_maybeSingle
                        (email_or_empty (data u))) ;;
          (if negb (isOwner (flatten (data o))) then
             c <- await invoke_check_subscription ;;
             if negb (is_subscribed (flatten (data c))) then
               act (toast upsell) ;;
               return_
             else skip
           else skip) ;;
          s <- await (invoke_ai_summarize (content doc) (title doc)) ;;
          throw_if (error s) ;;
          text <- preview (flatten (data s)) ;;
          act (toast {| toast_title := lit "AI Summary Generated";
                        description := text;
                        variant := Some default |}))
         (fun error =>
            act (toast {| toast_title := lit "Error generating summary";
                          description := message error;
                          variant := Some destructive |})))
      (act (setIsSummarizing None))).

(** The integrations the "Integrated Content" tab renders, in order. *)
Definition allow_list : list str :=
  [lit "google_drive"; lit "notion"; lit "github"].

Definition includes (l : list str) (x : str) : bool := existsb (eqb x) l.

Definition rendered_integrations : list Integration :=
  filter (fun integration => includes allow_list (integration_type integration))
         (integrations snap).

End DocumentManager.

(** ** The summarize button and the event loop *)

Inductive Icon := Loader2 | Brain.

Record Button := {
  disabled : bool;
  icon : Icon;
  onClick : Prog unit
}.

(** [isSummarizing === doc.id] *)
Definition isSummarizing_is (s : State) (docId : str) : bool :=
  match isSummarizing s with
  | Some current => eqb current docId
  | None => false
  end.

(** The summarize button of a document card, as one render draws it. *)
Definition summarize_button (s : State) (doc : Document) : Button :=
  {| disabled := isSummarizing_is s (id doc) || is_integration doc;
     icon := if isSummarizing_is s (id doc) then Loader2 else Brain;
     onClick := generateSummary doc |}.

(** A handler suspended at an await. *)
Record Task := {
  awaited : Type;
  request : Remote awaited;
  resume : Settled awaited -> Prog unit
}.

(** The page between two events: what can be observed, and the handlers
    in flight. Nothing removes a task but the settling of its promise. *)
Record Runtime := {
  world : World;
  pending : list Task
}.

Definition initial_runtime : Runtime :=
  {| world := initial_world; pending := [] |}.

(** Runs a handler up to its next await. *)
Fixpoint exec (p : Prog unit) (rt : Runtime) : Runtime :=
  match p with
  | Done (Throw e) => {| world := crash e (world rt); pending := pending rt |}
  | Done _ => rt
  | Do a k => exec k {| world := perform a (world rt); pending := pending rt |}
  | Await r k =>
      {| world := send r (world rt);
         pending := pending rt ++ [{| request := r; resume := k |}] |}
  end.

Fixpoint remove_nth {T} (i : nat) (l : list T) : list T :=
  match l, i with
  | [], _ => []
  | _ :: l', O => l'
  | x :: l', S i' => x :: remove_nth i' l'
  end.

(** The promise of the [i]-th handler in flight settles as the backend
    decides, and the handler runs on to its next await. *)
Definition settle (O : Oracle) (i : nat) (rt : Runtime) : Runtime :=
  match nth_error (pending rt) i with
  | None => rt
  | Some t =>
      exec (resume t (O _ (request t)))
           {| world := world rt; pending := remove_nth i (pending rt) |}
  end.

(** The effect on [teamId]: both loads are started, neither is awaited. *)
Definition useEffect (props : Props) (rt : Runtime) : Runtime :=
  exec (loadIntegrations props) (exec (loadDocuments props) rt).

(** A click on a button of the current render. [Button] renders an HTML
    button, and a disabled one does not dispatch the click: its handler is
    not fired. *)
Definition click (b : Button) (rt : Runtime) : Runtime :=
  if disabled b then rt else exec (onClick b) rt.

Definition click_summarize (doc : Document) (rt : Runtime) : Runtime :=
  click (summarize_button (state (world rt)) doc) rt.

(** The calls of the network log that are [ai-summarize] invocations. *)
Definition is_ai_summarize (c : Call) : bool :=
  match c with
  | call (invoke_ai_summarize _ _) => true
  | call _ => false
  end.

(** The world a finished run leaves on the page: an exception nobody caught
    is reported, not swallowed. *)
Definition settled_world {A} (r : Completion A * World) : World :=
  match fst r with
  | Throw e => crash e (snd r)
  | _ => snd r
  end.

(** ** The session observer of [AppContent] *)

Module AppContent.

(** The [useState] cells of [AppContent]. *)
Record State := {
  user : option User;
  session : option Session;
  isLoading : bool
}.

Definition initial_state : State :=
  {| user := None; session := None; isLoading := true |}.

Inductive Action :=
| setSession (v : option Session)
| setUser (v : option User)
| setIsLoading (v : bool).

Definition apply_setter (a : Action) (s : State) : State :=
  match a with
  | setSession v => {| user := user s; session := v; isLoading := isLoading s |}
  | setUser v => {| user := v; session := session s; isLoading := isLoading s |}
  | setIsLoading v => {| user := user s; session := session s; isLoading := v |}
  end.

(** [session?.user ?? null] *)
Definition user_of (session : option Session) : option User :=
  option_map session_user session.

(** The listener passed to [onAuthStateChange]. *)
Definition auth_listener (session : option Session) : list Action :=
  [setSession session; setUser (user_of session); setIsLoading false].

(** The continuation passed to [getSession().then]; it reads
    [data.session] and nothing else. *)
Definition getSession_then (r : Response (option Session)) : list Action :=
  let session := flatten (data r) in
  [setSession session; setUser (user_of session); setIsLoading false].

Inductive Phase := NotMounted | Mounted | Unmounted.

(** One instance of the component together with the identity service:
    whether the listener is registered, whether the [getSession] promise is
    still to settle, the [unsubscribe] calls made, and every setter call made
    once the component was unmounted. *)
Record World := {
  state : State;
  phase : Phase;
  listener : bool;
  getSession_pending : bool;
  unsubscribes : nat;
  late_updates : list Action
}.

Definition initial_world : World :=
  {| state := initial_state; phase := NotMounted; listener := false;
     getSession_pending := false; unsubscribes := 0; late_updates := [] |}.

(** A setter call. The callbacks call the setters whatever the phase;
    [state] is the value the calls made so far carry, and the calls made
    after the unmount are also kept on their own. What the renderer keeps in
    the cells of the component is [cells], further down: it stops following
    the calls at the unmount. *)
Definition perform (w : World) (a : Action) : World :=
  {| state := apply_setter a (state w);
     phase := phase w;
     listener := listener w;
     getSession_pending := getSession_pending w;
     unsubscribes := unsubscribes w;
     late_updates :=
       match phase w with
       | Unmounted => late_updates w ++ [a]
       | _ => late_updates w
       end |}.

Definition perform_all (l : list Action) (w : World) : World :=
  fold_left perform l w.

Inductive Event :=
| Mount
| AuthStateChange (session : option Session)
| GetSessionSettled (s : Settled (Response (option Session)))
| Unmount.

(** The effect, run once after the first render: it registers the listener
    first, then asks for the existing session. *)
Definition effect (w : World) : World :=
  {| state := state w; phase := phase w; listener := true;
     getSession_pending := true; unsubscribes := unsubscribes w;
     late_updates := late_updates w |}.

(** The cleanup the effect returns: [subscription.unsubscribe()], and
    nothing about the promise. *)
Definition cleanup (w : World) : World :=
  {| state := state w; phase := phase w; listener := false;
     getSession_pending := getSession_pending w;
     unsubscribes := S (unsubscribes w);
     late_updates := late_updates w |}.

Definition enter (p : Phase) (w : World) : World :=
  {| state := state w; phase := p; listener := listener w;
     getSession_pending := getSession_pending w;
     unsubscribes := unsubscribes w; late_updates := late_updates w |}.

Definition promise_settled (w : World) : World :=
  {| state := state w; phase := phase w; listener := listener w;
     getSession_pending := false; unsubscribes := unsubscribes w;
     late_updates := late_updates w |}.

(** What each event sets off: the effect on mount, the listener on an
    auth-state change while it is registered, the continuation when the
    promise is fulfilled (a rejection has no handler), the cleanup on
    unmount. *)
Definition step (w : World) (e : Event) : World :=
  match e with
  | Mount =>
      match phase w with
      | NotMounted => effect (enter Mounted w)
      | _ => w
      end
  | AuthStateChange session =>
      if listener w then perform_all (auth_listener session) w else w
  | GetSessionSettled s =>
      if getSession_pending w then
        match s with
        | Fulfilled r => perform_all (getSession_then r) (promise_settled w)
        | Rejected _ => promise_settled w
        end
      else w
  | Unmount =>
      match phase w with
      | Mounted => cleanup (enter Unmounted w)
      | _ => w
      end
  end.

Definition steps (es : list Event) (w : World) : World := fold_left step es w.

End AppContent.

(** ** Backends and data for concrete runs *)

(** A backend on which every promise is rejected with [e]. *)
Definition reject_all (e : Error) : Oracle := fun _ _ => Rejected e.

(** A backend on which every call succeeds: the tables are empty, the
    caller is [u], not an owner, and subscribed. *)
Definition succeed_all (u : User) : Oracle :=
  fun X r =>
    match r in Remote X return Settled X with
    | documents_select _ => Fulfilled (Success (Some []))
    | integrations_select _ => Fulfilled (Success (Some []))
    | documents_insert t c team owner =>
        Fulfilled (Success {| id := lit "new"; title := Some t;
                              content := Some c; team_id := team;
                              owner_id := owner; updated_at := None;
                              is_integration := false |})
    | documents_update _ _ _ => Fulfilled (Success tt)
    | documents_delete _ => Fulfilled (Success tt)
    | auth_getUser => Fulfilled (Success u)
    | owner_privileges_maybeSingle _ => Fulfilled (Success None)
    | invoke_check_subscription =>
        Fulfilled (Success (Some {| subscribed := true |}))
    | invoke_ai_summarize _ _ =>
        Fulfilled (Success (Some {| summary := Some (lit "A summary.") |}))
    end.

(** [O], with the answers of one call replaced. *)
Definition with_owner_lookup
    (answer : str -> Settled (Response (option OwnerPrivilege)))
    (O : Oracle) : Oracle :=
  fun X r =>
    match r in Remote X return Settled X with
    | owner_privileges_maybeSingle email => answer email
    | other => O _ other
    end.

Definition with_check_subscription
    (answer : Settled (Response (option SubscriptionCheck)))
    (O : Oracle) : Oracle :=
  fun X r =>
    match r in Remote X return Settled X with
    | invoke_check_subscription => answer
    | other => O _ other
    end.

Definition with_integrations_select
    (answer : Settled (Response (option (list Integration))))
    (O : Oracle) : Oracle :=
  fun X r =>
    match r in Remote X return Settled X with
    | integrations_select _ => answer
    | other => O _ other
    end.

Definition with_documents_delete (answer : Settled (Response unit))
    (O : Oracle) : Oracle :=
  fun X r =>
    match r in Remote X return Settled X with
    | documents_delete _ => answer
    | other => O _ other
    end.

Definition alice : User :=
  {| user_id := lit "u-1"; email := Some (lit "alice@example.com") |}.

Definition sample_props : Props :=
  {| user := alice; teamId := lit "team-1" |}.

Definition doc_a : Document :=
  {| id := lit "a"; title := Some (lit "Notes"); content := Some (lit "alpha");
     team_id := lit "team-1"; owner_id := lit "u-1"; updated_at := None;
     is_integration := false |}.

Definition doc_b : Document :=
  {| id := lit "b"; title := Some (lit "Plan"); content := None;
     team_id := lit "team-1"; owner_id := lit "u-1"; updated_at := None;
     is_integration := false |}.

(** A second row carrying the identifier of [doc_a]. *)
Definition doc_a' : Document :=
  {| id := lit "a"; title := Some (lit "Notes, edited");
     content := Some (lit "beta"); team_id := lit "team-1";
     owner_id := lit "u-1"; updated_at := None; is_integration := false |}.

Definition with_documents (l : list Document) (w : World) : World :=
  {| state := apply_setter (setDocuments l) (state w); toasts := toasts w;
     console := console w; network := network w; unhandled := unhandled w |}.

Definition with_integrations (l : list Integration) (s : State) : State :=
  apply_setter (setIntegrations l) s.

Definition with_newDocTitle (t : str) (w : World) : World :=
  {| state := apply_setter (setNewDocTitle t) (state w); toasts := toasts w;
     console := console w; network := network w; unhandled := unhandled w |}.

Definition boom : Error := {| message := lit "boom" |}.


(** ** Vocabulary of the statements *)

(** A call fails with [e]: the client answers with an error object, or the
    promise itself is rejected. *)
Definition fails_with {T} (s : Settled (Response T)) (e : Error) : Prop :=
  s = Fulfilled (Failure e) \/ s = Rejected e.

(** The destructive notification every catch block of the component
    builds, up to its title. *)
Definition error_toast (heading : string) (e : Error) : Toast :=
  {| toast_title := lit heading; description := message e;
     variant := Some destructive |}.

(** The payment gate lets the caller through: an owner row came back, or
    the subscription check answered "subscribed". *)
Definition gate_open (O : Oracle) (o : Response (option OwnerPrivilege)) : Prop :=
  isOwner (flatten (data o)) = true \/
  exists c, O _ invoke_check_subscription = Fulfilled c /\
            is_subscribed (flatten (data c)) = true.

(** The remote steps of [generateSummary] at which the [try] block throws,
    and what it throws there: a rejected promise at any of the four awaits,
    an error object returned by [ai-summarize], or an answer of
    [ai-summarize] without a summary text. *)
Inductive summarize_throws (O : Oracle) (doc : Document) : Error -> Prop :=
| getUser_rejected e :
    O _ auth_getUser = Rejected e ->
    summarize_throws O doc e
| owner_lookup_rejected u e :
    O _ auth_getUser = Fulfilled u ->
    O _ (owner_privileges_maybeSingle (email_or_empty (data u))) = Rejected e ->
    summarize_throws O doc e
| check_subscription_rejected u o e :
    O _ auth_getUser = Fulfilled u ->
    O _ (owner_privileges_maybeSingle (email_or_empty (data u))) = Fulfilled o ->
    isOwner (flatten (data o)) = false ->
    O _ invoke_check_subscription = Rejected e ->
    summarize_throws O doc e
| ai_summarize_failed u o e :
    O _ auth_getUser = Fulfilled u ->
    O _ (owner_privileges_maybeSingle (email_or_empty (data u))) = Fulfilled o ->
    gate_open O o ->
    fails_with (O _ (invoke_ai_summarize (content doc) (title doc))) e ->
    summarize_throws O doc e
| ai_summarize_empty u o :
    O _ auth_getUser = Fulfilled u ->
    O _ (owner_privileges_maybeSingle (email_or_empty (data u))) = Fulfilled o ->
    gate_open O o ->
    O _ (invoke_ai_summarize (content doc) (title doc))
      = Fulfilled (Success None) ->
    summarize_throws O doc (TypeError "null" "summary")
| ai_summarize_no_text u o :
    O _ auth_getUser = Fulfilled u ->
    O _ (owner_privileges_maybeSingle (email_or_empty (data u))) = Fulfilled o ->
    gate_open O o ->
    O _ (invoke_ai_summarize (content doc) (title doc))
      = Fulfilled (Success (Some {| summary := None |})) ->
    summarize_throws O doc (TypeError "undefined" "substring").

Definition with_ai_summarize
    (answer : Settled (Response (option SummaryResponse)))
    (O : Oracle) : Oracle :=
  fun X r =>
    match r in Remote X return Settled X with
    | invoke_ai_summarize _ _ => answer
    | other => O _ other
    end.

(** The set the backend's [owner_privileges] table holds [owner] in: a
    lookup finds a row for that email and for no other. *)
Definition owner_table (owner : str) (O : Oracle) : Oracle :=
  with_owner_lookup
    (fun email =>
       if eqb email owner
       then Fulfilled (Success (Some {| owner_email := owner |}))
       else Fulfilled (Success None))
    O.

Definition not_subscribed : Settled (Response (option SubscriptionCheck)) :=
  Fulfilled (Success (Some {| subscribed := false |})).

(** What holds of the session observer after any sequence of events. *)
Definition observer_invariant (w : AppContent.World) : Prop :=
  match AppContent.phase w with
  | AppContent.NotMounted =>
      AppContent.listener w = false /\ AppContent.getSession_pending w = false /\
      AppContent.unsubscribes w = 0 /\ AppContent.late_updates w = []
  | AppContent.Mounted =>
      AppContent.listener w = true /\ AppContent.unsubscribes w = 0 /\
      AppContent.late_updates w = []
  | AppContent.Unmounted =>
      AppContent.listener w = false /\ AppContent.unsubscribes w = 1 /\
      ((AppContent.getSession_pending w = true /\ AppContent.late_updates w = []) \/
       (AppContent.getSession_pending w = false /\
        (AppContent.late_updates w = [] \/
         exists r, AppContent.late_updates w = AppContent.getSession_then r)))
  end.

Definition alice_session : Session := {| session_user := alice |}.
(** ** The rest of the document manager's view *)

(** [editingDoc?.id === doc.id]: the card of [doc] is drawn with its
    inputs and the Save and Cancel buttons. *)
Definition is_editing (s : State) (doc : Document) : bool :=
  match editingDoc s with
  | Some editing => eqb (id editing) (id doc)
  | None => false
  end.

(** [{ ...editingDoc, title: v }] *)
Definition with_title (v : str) (d : Document) : Document :=
  {| id := id d; title := Some v; content := content d; team_id := team_id d;
     owner_id := owner_id d; updated_at := updated_at d;
     is_integration := is_integration d |}.

(** [{ ...editingDoc, content: v }] *)
Definition with_content (v : str) (d : Document) : Document :=
  {| id := id d; title := title d; content := Some v; team_id := team_id d;
     owner_id := owner_id d; updated_at := updated_at d;
     is_integration := is_integration d |}.

(** The events of the page. A card is named by its position in
    [documents], an integration item by its position among the rendered
    ones. *)
Inductive UIEvent :=
| CreateDialog_onOpenChange (open : bool)
| Title_onChange (v : str)
| Content_onChange (v : str)
| Cancel_onClick
| CreateDocument_onClick
| CreateFirstDocument_onClick
| Edit_onClick (card : nat)
| Summarize_onClick (card : nat)
| Delete_onClick (card : nat)
| EditTitle_onChange (card : nat) (v : str)
| EditContent_onChange (card : nat) (v : str)
| Save_onClick (card : nat)
| CancelEdit_onClick (card : nat)
| Item_onViewContent (item : nat) (c : option ViewedContent)
| Viewer_onOpenChange
| Promise_settles (backend : Oracle) (task : nat).

(** What a control of a card does, when the render [s] draws it enabled.
    The card shows either its three icon buttons or, for the document being
    edited, the inputs with Save and Cancel. *)
Definition card_handler (s : State) (doc : Document) (e : UIEvent)
  : option (Prog unit) :=
  match e with
  | Edit_onClick _ =>
      if is_editing s doc || is_integration doc then None
      else Some (act (setEditingDoc (Some doc)))
  | Summarize_onClick _ =>
      if is_editing s doc || disabled (summarize_button s doc) then None
      else Some (onClick (summarize_button s doc))
  | Delete_onClick _ =>
      if is_editing s doc || is_integration doc then None
      else Some (deleteDocument s (id doc))
  | EditTitle_onChange _ v =>
      match editingDoc s with
      | Some editing =>
          if is_editing s doc
          then Some (act (setEditingDoc (Some (with_title v editing))))
          else None
      | None => None
      end
  | EditContent_onChange _ v =>
      match editingDoc s with
      | Some editing =>
          if is_editing s doc
          then Some (act (setEditingDoc (Some (with_content v editing))))
          else None
      | None => None
      end
  | Save_onClick _ =>
      match editingDoc s with
      | Some editing =>
          if is_editing s doc then Some (updateDocument s editing) else None
      | None => None
      end
  | CancelEdit_onClick _ =>
      if is_editing s doc then Some (act (setEditingDoc None)) else None
  | _ => None
  end.

(** The handler an event fires in the render of [s], if the render draws
    the control and the control is enabled. While [isLoading] only the
    spinner is drawn. (Both tabs and the dialog's fields are taken as
    reachable whenever the page is drawn.) *)
Definition handler (props : Props) (s : State) (e : UIEvent)
  : option (Prog unit) :=
  if isLoading s then None else
  match e with
  | CreateDialog_onOpenChange open => Some (act (setIsCreateDialogOpen open))
  | Title_onChange v => Some (act (setNewDocTitle v))
  | Content_onChange v => Some (act (setNewDocContent v))
  | Cancel_onClick => Some (act (setIsCreateDialogOpen false))
  | CreateDocument_onClick =>
      if negb (truthy (trim (newDocTitle s))) then None
      else Some (createDocument props s)
  | CreateFirstDocument_onClick =>
      match documents s with
      | [] => Some (act (setIsCreateDialogOpen true))
      | _ :: _ => None
      end
  | Edit_onClick card | Summarize_onClick card | Delete_onClick card
  | EditTitle_onChange card _ | EditContent_onChange card _
  | Save_onClick card | CancelEdit_onClick card =>
      match nth_error (documents s) card with
      | Some doc => card_handler s doc e
      | None => None
      end
  | Item_onViewContent item c =>
      match nth_error (rendered_integrations s) item with
      | Some _ => Some (act (setViewingContent c))
      | None => None
      end
  | Viewer_onOpenChange =>
      match viewingContent s with
      | Some _ => Some (act (setViewingContent None))
      | None => None
      end
  | Promise_settles _ _ => None
  end.

(** One turn of the event loop. *)
Definition dispatch (props : Props) (e : UIEvent) (rt : Runtime) : Runtime :=
  match e with
  | Promise_settles backend task => settle backend task rt
  | _ =>
      match handler props (state (world rt)) e with
      | Some p => exec p rt
      | None => rt
      end
  end.

(** The page under props that may change from render to render: the effect
    runs after the first render and again whenever [teamId] differs from
    the previous render's. *)
Inductive reachable : Props -> Runtime -> Prop :=
| reachable_mount props :
    reachable props (useEffect props initial_runtime)
| reachable_event props e rt :
    reachable props rt ->
    reachable props (dispatch props e rt)
| reachable_props props props' rt :
    reachable props rt ->
    reachable props'
      (if eqb (teamId props) (teamId props') then rt else useEffect props' rt).

(** Every action a program can perform, whatever its awaits are answered,
    satisfies [P]. *)
Inductive all_actions (P : Action -> Prop) {A : Type} : Prog A -> Prop :=
| all_actions_Done c : all_actions P (Done c)
| all_actions_Do a k :
    P a -> all_actions P k -> all_actions P (Do a k)
| all_actions_Await X (r : Remote X) k :
    (forall x, all_actions P (k x)) -> all_actions P (Await r k).

(** The same of the handlers in flight. *)
Definition all_pending (P : Action -> Prop) (rt : Runtime) : Prop :=
  forall t, In t (pending rt) -> forall x, all_actions P (resume t x).

(** The three tabs' worth of content the integrations tab can show. *)
Inductive IntegrationsTab :=
| NoIntegrationsYet
| IntegrationsGrid (items : list Integration).

Definition integrations_tab (s : State) : IntegrationsTab :=
  match integrations s with
  | [] => NoIntegrationsYet
  | _ :: _ => IntegrationsGrid (rendered_integrations s)
  end.

(** What the component returns. *)
Inductive View :=
| LoadingView
| PageView (viewer : option ViewedContent) (cards : list Document)
           (tab : IntegrationsTab).

Definition render (s : State) : View :=
  if isLoading s then LoadingView
  else PageView (viewingContent s) (documents s) (integrations_tab s).

(** [s.replace(pattern, replacement)] with a string pattern and a
    replacement free of [$]: the first occurrence is replaced, the rest of
    the string is kept. *)
Fixpoint starts_with (pattern s : str) : bool :=
  match pattern, s with
  | [], _ => true
  | p :: pattern', c :: s' => N.eqb p c && starts_with pattern' s'
  | _ :: _, [] => false
  end.

Fixpoint replace (s pattern replacement : str) : str :=
  if starts_with pattern s
  then replacement ++ skipn (List.length pattern) s
  else match s with
       | [] => []
       | c :: s' => c :: replace s' pattern replacement
       end.

(** [viewingContent.type.replace('_', ' ')] *)
Definition viewer_type_label (c : ViewedContent) : str :=
  replace (viewed_type c) (lit "_") (lit " ").

(** The underscore, and its count in a string. *)
Definition underscore : N := 95.

Definition count_unit (c : N) (s : str) : nat :=
  List.length (filter (N.eqb c) s).

(** ** The routes of [AppContent] *)

Module Routes.

(** The page components, with the [user] prop of those that take one. *)
Inductive Page :=
| Dashboard (user : User)
| Landing
| Pricing
| Features
| About
| TeamInvite
| Integrations
| IntegrationDetail
| API
| Security
| Contact
| Privacy
| Terms
| AuthPage
| DocumentsPage (user : User)
| ChatPage (user : User)
| Settings (user : User)
| Success
| NotFound.

(** The route table, in source order. *)
Definition routes (user : option User) : list (string * Page) :=
  [ ("/", match user with Some u => Dashboard u | None => Landing end);
    ("/pricing", Pricing);
    ("/features", Features);
    ("/about", About);
    ("/team-invite", TeamInvite);
    ("/integrations", Integrations);
    ("/integration/:name", IntegrationDetail);
    ("/api", API);
    ("/security", Security);
    ("/contact", Contact);
    ("/privacy", Privacy);
    ("/terms", Terms);
    ("/auth", match user with Some u => Dashboard u | None => AuthPage end);
    ("/dashboard", match user with Some u => Dashboard u | None => AuthPage end);
    ("/documents", match user with Some u => DocumentsPage u | None => AuthPage end);
    ("/chat", match user with Some u => ChatPage u | None => AuthPage end);
    ("/settings", match user with Some u => Settings u | None => AuthPage end);
    ("/success", Success);
    ("*", NotFound) ]%string.

(** The user a page was handed, if it takes one. *)
Definition page_user (p : Page) : option User :=
  match p with
  | Dashboard u | DocumentsPage u | ChatPage u | Settings u => Some u
  | _ => None
  end.

(** What [AppContent] returns: the spinner while loading, else the shell
    with the navigation bar and the routes. *)
Inductive View :=
| LoadingSpinner
| Shell (navbar_user : option User) (table : list (string * Page)).

Definition render (s : AppContent.State) : View :=
  if AppContent.isLoading s then LoadingSpinner
  else Shell (AppContent.user s) (routes (AppContent.user s)).

(** The paths behind the sign-in. *)
Definition gated : list string :=
  ["/dashboard"; "/documents"; "/chat"; "/settings"]%string.

End Routes.

(** [O], with the answer of [getUser] replaced. *)
Definition with_getUser (answer : Settled (Response User)) (O : Oracle) : Oracle :=
  fun X r =>
    match r in Remote X return Settled X with
    | auth_getUser => answer
    | other => O _ other
    end.

(** [O], with the answers of the two selects replaced. *)
Definition with_documents_select
    (answer : str -> Settled (Response (option (list Document))))
    (O : Oracle) : Oracle :=
  fun X r =>
    match r in Remote X return Settled X with
    | documents_select team => answer team
    | other => O _ other
    end.

(** An event that runs one of the session observer's two callbacks. *)
Definition runs_no_callback (e : AppContent.Event) : Prop :=
  match e with
  | AppContent.AuthStateChange _ => False
  | AppContent.GetSessionSettled (Fulfilled _) => False
  | _ => True
  end.

(** A sequence of events under the same props. *)
Definition dispatch_all (props : Props) (es : list UIEvent) (rt : Runtime)
  : Runtime :=
  fold_left (fun rt' e => dispatch props e rt') es rt.

(** Actions that do not bring the spinner back. *)
Definition keeps_loaded (a : Action) : Prop := a <> setIsLoading true.

(** Actions that put only an editable document into the edit mode. *)
Definition edits_editable (a : Action) : Prop :=
  match a with
  | setEditingDoc (Some d) => is_integration d = false
  | _ => True
  end.

(** The document being edited, if any, is not an integration's. *)
Definition editing_editable (s : State) : Prop :=
  forall d, editingDoc s = Some d -> is_integration d = false.

(** ** The session observer's cells as the renderer keeps them *)







(** ** More vocabulary *)

(** The entries of a list that carry an identifier. *)
Definition count_id (docId : str) (l : list Document) : nat :=
  List.length (filter (fun d => eqb (id d) docId) l).

(** A row an integration brought in under the identifier of [doc_a]. *)
Definition doc_a_imported : Document :=
  {| id := lit "a"; title := Some (lit "Imported notes"); content := None;
     team_id := lit "team-2"; owner_id := lit "u-1"; updated_at := None;
     is_integration := true |}.

Definition other_team : Props := {| user := alice; teamId := lit "team-2" |}.

(** A backend that answers the documents select with [rows]. *)
Definition serving (rows : list Document) : Oracle :=
  with_documents_select (fun _ => Fulfilled (Success (Some rows)))
    (succeed_all alice).
(** * Properties *)

(** ** Strings *)

Lemma eqb_eq (a b : str) : eqb a b = true <-> a = b.
Proof.
  revert b; induction a as [|x a IH]; intros [|y b]; simpl;
    try (split; [discriminate | intros H; inversion H]); try tauto.
  rewrite andb_true_iff, N.eqb_eq, IH.
  split; [intros [-> ->]; reflexivity | intros H; inversion H; auto].
Qed.

Lemma eqb_refl (a : str) : eqb a a = true.
Proof. apply eqb_eq; reflexivity. Qed.

Lemma eqb_neq (a b : str) : eqb a b = false <-> a <> b.
Proof.
  rewrite <- eqb_eq. destruct (eqb a b); split; congruence.
Qed.

Lemma trimStart_blank (s : str) :
  forallb is_white_space s = true -> trimStart s = [].
Proof.
  induction s as [|c s IH]; simpl; [reflexivity|].
  intros H; apply andb_true_iff in H as [Hc Hs].
  rewrite Hc; auto.
Qed.

Lemma trim_blank (s : str) :
  forallb is_white_space s = true -> trim s = [].
Proof.
  intros H; unfold trim, trimEnd.
  rewrite (trimStart_blank _ H); reflexivity.
Qed.

Lemma trimStart_nil_blank (s : str) :
  trimStart s = [] -> forallb is_white_space s = true.
Proof.
  induction s as [|c s IH]; simpl; [reflexivity|].
  destruct (is_white_space c); [auto | discriminate].
Qed.

Lemma trim_nil_blank (s : str) :
  trim s = [] -> forallb is_white_space s = true.
Proof.
  unfold trim, trimEnd; intros H.
  apply trimStart_nil_blank.
  assert (Hr : trimStart (rev (trimStart s)) = [])
    by (rewrite <- (rev_involutive (trimStart _)), H; reflexivity).
  apply trimStart_nil_blank in Hr.
  rewrite forallb_forall in Hr.
  assert (Hall : forall c, In c (trimStart s) -> is_white_space c = true)
    by (intros c Hc; apply Hr, in_rev; rewrite rev_involutive; exact Hc).
  destruct (trimStart s) as [|c t] eqn:E; [reflexivity|].
  exfalso.
  assert (Hc : is_white_space c = true) by (apply Hall; left; reflexivity).
  clear - E Hc.
  induction s as [|x s IH]; simpl in E; [discriminate|].
  destruct (is_white_space x) eqn:Hx; [auto|].
  inversion E; subst; congruence.
Qed.

Example trim_inner_space_kept :
  trim (lit "  a b  ") = lit "a b".
Proof. reflexivity. Qed.

Example trim_line_terminators :
  trim [0x09; 0x0A; 0xFEFF; 0x3000; 0x2028]%N = [].
Proof. reflexivity. Qed.

Example substring_clamps :
  substring (lit "abc") 0 150 = lit "abc" /\
  substring (lit "abcdef") 4 2 = lit "cd".
Proof. split; reflexivity. Qed.

Lemma substring_prefix (s : str) (n : nat) :
  substring s 0 n = firstn n s.
Proof.
  unfold substring.
  change (Nat.min 0 (List.length s)) with 0.
  rewrite Nat.max_0_l, Nat.min_0_l, Nat.sub_0_r. simpl skipn.
  destruct (Nat.le_ge_cases n (List.length s)) as [Hle|Hge].
  - rewrite Nat.min_l by exact Hle. reflexivity.
  - rewrite Nat.min_r by exact Hge.
    rewrite !firstn_all2; [reflexivity | exact Hge | apply Nat.le_refl].
Qed.

(** ** Create *)

(** C7. When the title typed into the creation dialog is empty or made of
    white space only, [createDocument] is the empty program: run against
    any backend it sends no call, shows nothing and leaves every state cell,
    the dialog's open flag and the two input fields among them, as it was. *)
Theorem createDocument_blank_title :
  forall (props : Props) (O : Oracle) (w : World),
    forallb is_white_space (newDocTitle (state w)) = true ->
    createDocument props (state w) = skip /\
    run O (createDocument props (state w)) w = (Normal tt, w) /\
    network (snd (run O (createDocument props (state w)) w)) = network w /\
    isCreateDialogOpen (state (snd (run O (createDocument props (state w)) w)))
      = isCreateDialogOpen (state w).
Proof.
  intros props O w H.
  assert (E : createDocument props (state w) = skip).
  { unfold createDocument. rewrite (trim_blank _ H). reflexivity. }
  rewrite E. repeat split.
Qed.

Lemma createDocument_blank_title_witness :
  let w := with_newDocTitle (lit "  ") initial_world in
  createDocument sample_props (state w) = skip /\
  run (succeed_all alice) (createDocument sample_props (state w)) w
    = (Normal tt, w) /\
  network (snd (run (succeed_all alice)
                  (createDocument sample_props (state w)) w)) = network w /\
  isCreateDialogOpen
    (state (snd (run (succeed_all alice)
                   (createDocument sample_props (state w)) w)))
    = isCreateDialogOpen (state w).
Proof.
  exact (createDocument_blank_title sample_props (succeed_all alice)
           (with_newDocTitle (lit "  ") initial_world) eq_refl).
Defined.

(** With any other title the insert goes out. *)
Lemma createDocument_sends (props : Props) (O : Oracle) (w : World) :
  forallb is_white_space (newDocTitle (state w)) = false ->
  exists rest,
    network (snd (run O (createDocument props (state w)) w))
    = network w
      ++ call (documents_insert (newDocTitle (state w))
                 (newDocContent (state w)) (teamId props)
                 (user_id (user props))) :: rest.
Proof.
  intros H. unfold createDocument.
  destruct (trim (newDocTitle (state w))) as [|c t] eqn:E.
  - apply trim_nil_blank in E. congruence.
  - simpl.
    destruct (O _ (documents_insert (newDocTitle (state w))
                     (newDocContent (state w)) (teamId props)
                     (user_id (user props)))) as [[d|e]|e];
      simpl; exists []; reflexivity.
Qed.

(** A successful create puts the new row at the head of the list, empties
    the two input fields and closes the dialog. *)
Lemma createDocument_success (props : Props) (O : Oracle) (w : World)
    (row : Document) :
  forallb is_white_space (newDocTitle (state w)) = false ->
  O _ (documents_insert (newDocTitle (state w)) (newDocContent (state w))
         (teamId props) (user_id (user props)))
    = Fulfilled (Success row) ->
  let s' := state (snd (run O (createDocument props (state w)) w)) in
  documents s' = row :: documents (state w) /\
  newDocTitle s' = [] /\ newDocContent s' = [] /\
  isCreateDialogOpen s' = false.
Proof.
  intros H HO. unfold createDocument.
  destruct (trim (newDocTitle (state w))) as [|c t] eqn:E.
  - apply trim_nil_blank in E. congruence.
  - simpl. rewrite HO. repeat split.
Qed.

(** ** Integrations tab *)

Lemma includes_allow_list (t : str) :
  includes allow_list t = true <->
  t = lit "google_drive" \/ t = lit "notion" \/ t = lit "github".
Proof.
  unfold includes, allow_list; simpl.
  rewrite !orb_true_iff, !eqb_eq. intuition discriminate.
Qed.

(** C9. The integrations drawn on the "Integrated Content" tab are exactly
    the entries of the integrations list whose type is one of
    [google_drive], [notion] and [github]; an entry of any other type is
    not drawn. *)
Theorem rendered_integrations_allow_list :
  forall (s : State) (i : Integration),
    In i (rendered_integrations s) <->
    In i (integrations s) /\
    (integration_type i = lit "google_drive" \/
     integration_type i = lit "notion" \/
     integration_type i = lit "github").
Proof.
  intros s i. unfold rendered_integrations.
  rewrite filter_In, includes_allow_list. reflexivity.
Qed.

Example rendered_integrations_sample :
  let entry (n t : str) :=
    {| integration_id := n; integration_team_id := lit "team-1";
       integration_type := t |} in
  rendered_integrations
    (with_integrations
       [entry (lit "1") (lit "google_drive"); entry (lit "2") (lit "slack");
        entry (lit "3") (lit "github"); entry (lit "4") (lit "Notion");
        entry (lit "5") (lit "notion")]
       initial_state)
  = [entry (lit "1") (lit "google_drive"); entry (lit "3") (lit "github");
     entry (lit "5") (lit "notion")].
Proof. reflexivity. Qed.

(** ** Update *)

Lemma run_updateDocument_success (O : Oracle) (w : World) (doc : Document) :
  O _ (documents_update (title doc) (content doc) (id doc))
    = Fulfilled (Success tt) ->
  documents (state (snd (run O (updateDocument (state w) doc) w)))
  = map (fun d => if eqb (id d) (id doc) then doc else d)
        (documents (state w)).
Proof.
  intros H. unfold updateDocument. simpl. rewrite H. reflexivity.
Qed.

(** C6. After a successful update the list has the same length, and at
    every position the entry is the old entry itself when its identifier
    differs from the updated document's, and the updated document when it
    matches. *)
Theorem updateDocument_frame :
  forall (O : Oracle) (w : World) (doc : Document),
    O _ (documents_update (title doc) (content doc) (id doc))
      = Fulfilled (Success tt) ->
    let docs := documents (state w) in
    let docs' := documents (state (snd (run O (updateDocument (state w) doc) w))) in
    List.length docs' = List.length docs /\
    forall (i : nat) (d : Document),
      nth_error docs i = Some d ->
      (id d <> id doc -> nth_error docs' i = Some d) /\
      (id d = id doc -> nth_error docs' i = Some doc).
Proof.
  intros O w doc H docs docs'.
  subst docs'. rewrite (run_updateDocument_success _ _ _ H). fold docs.
  split; [apply length_map|].
  intros i d Hi. rewrite nth_error_map, Hi. simpl.
  split; intros Hid.
  - apply eqb_neq in Hid. rewrite Hid. reflexivity.
  - apply eqb_eq in Hid. rewrite Hid. reflexivity.
Qed.

Lemma updateDocument_frame_witness :
  let w := with_documents [doc_b; doc_a] initial_world in
  let docs := documents (state w) in
  let docs' :=
    documents (state (snd (run (succeed_all alice)
                             (updateDocument (state w) doc_a') w))) in
  List.length docs' = List.length docs /\
  forall (i : nat) (d : Document),
    nth_error docs i = Some d ->
    (id d <> id doc_a' -> nth_error docs' i = Some d) /\
    (id d = id doc_a' -> nth_error docs' i = Some doc_a').
Proof.
  exact (updateDocument_frame (succeed_all alice)
           (with_documents [doc_b; doc_a] initial_world) doc_a' eq_refl).
Defined.

(** ** Delete *)

Lemma apply_setDocuments_same (s : State) :
  apply_setter (setDocuments (documents s)) s = s.
Proof. destruct s; reflexivity. Qed.

Lemma filter_other_ids (docId : str) (l : list Document) :
  (forall x, In x l -> id x <> docId) ->
  filter (fun d => negb (eqb (id d) docId)) l = l.
Proof.
  induction l as [|x l IH]; simpl; intros H; [reflexivity|].
  assert (Hx : eqb (id x) docId = false) by (apply eqb_neq, H; auto).
  rewrite Hx; simpl. f_equal; auto.
Qed.

Lemma filter_drops_id (docId : str) (l : list Document) :
  forall x, In x (filter (fun d => negb (eqb (id d) docId)) l) ->
            id x <> docId.
Proof.
  intros x Hx. apply filter_In in Hx as [_ Hx].
  apply negb_true_iff, eqb_neq in Hx. exact Hx.
Qed.

(** In a list whose identifiers are pairwise distinct, filtering out the
    identifier of a member removes that member and nothing else. *)
Lemma filter_unique_id (d : Document) (l : list Document) :
  In d l -> NoDup (map id l) ->
  exists before after,
    l = before ++ d :: after /\
    filter (fun x => negb (eqb (id x) (id d))) l = before ++ after.
Proof.
  intros Hin Hnd.
  destruct (in_split _ _ Hin) as (before & after & ->).
  exists before, after. split; [reflexivity|].
  rewrite map_app in Hnd. simpl in Hnd.
  pose proof (NoDup_remove_2 _ _ _ Hnd) as Hnot.
  rewrite filter_app. simpl. rewrite eqb_refl. simpl.
  rewrite !filter_other_ids; [reflexivity| |];
    intros x Hx Heq; apply Hnot; rewrite <- Heq, in_app_iff;
    [right|left]; apply in_map; exact Hx.
Qed.

Lemma run_deleteDocument (O : Oracle) (w : World) (s : State) (docId : str) :
  run O (deleteDocument s docId) w =
  match O _ (documents_delete docId) with
  | Fulfilled (Success _) =>
      (Normal tt,
       perform (toast {| toast_title := lit "Document deleted";
                         description := lit "Your document has been deleted.";
                         variant := None |})
         (perform (setDocuments
                     (filter (fun d => negb (eqb (id d) docId)) (documents s)))
            (send (documents_delete docId) w)))
  | Fulfilled (Failure e) | Rejected e =>
      (Normal tt,
       perform (toast {| toast_title := lit "Error deleting document";
                         description := message e;
                         variant := Some destructive |})
         (send (documents_delete docId) w))
  end.
Proof.
  unfold deleteDocument. simpl.
  destruct (O _ (documents_delete docId)) as [[u|e]|e]; reflexivity.
Qed.

(** Take a document of the list, in a list whose identifiers are
    pairwise distinct (rows of a table keyed by the identifier). A
    successful delete of its identifier removes that one entry and keeps
    the others in order, so that no entry with the identifier is left.
    Deleting the same identifier again, whatever the backend answers, leaves
    every state cell as it was; when the backend answers with an error, the
    error's message is shown. *)
Theorem deleteDocument_removes_one :
  forall (O O' : Oracle) (w : World) (d : Document),
    In d (documents (state w)) ->
    NoDup (map id (documents (state w))) ->
    O _ (documents_delete (id d)) = Fulfilled (Success tt) ->
    let w1 := snd (run O (deleteDocument (state w) (id d)) w) in
    let w2 := snd (run O' (deleteDocument (state w1) (id d)) w1) in
    (exists before after,
        documents (state w) = before ++ d :: after /\
        documents (state w1) = before ++ after) /\
    S (List.length (documents (state w1))) = List.length (documents (state w)) /\
    (forall x, In x (documents (state w1)) -> id x <> id d) /\
    state w2 = state w1 /\
    (forall e, O' _ (documents_delete (id d)) = Fulfilled (Failure e) ->
       toasts w2 = toasts w1
                   ++ [{| toast_title := lit "Error deleting document";
                          description := message e;
                          variant := Some destructive |}]).
Proof.
  intros O O' w d Hin Hnd HO w1 w2.
  assert (E1 : documents (state w1)
               = filter (fun x => negb (eqb (id x) (id d)))
                        (documents (state w))).
  { subst w1. rewrite run_deleteDocument, HO. reflexivity. }
  destruct (filter_unique_id _ _ Hin Hnd) as (before & after & Hl & Hf).
  assert (Hgone : forall x, In x (documents (state w1)) -> id x <> id d).
  { rewrite E1. apply filter_drops_id. }
  split; [exists before, after; split; [exact Hl | rewrite E1; exact Hf]|].
  split; [rewrite E1, Hf, Hl, !length_app; simpl; lia|].
  split; [exact Hgone|].
  subst w2. rewrite run_deleteDocument.
  split.
  - destruct (O' _ (documents_delete (id d))) as [[u|e]|e]; simpl;
      try reflexivity.
    rewrite (filter_other_ids _ Hgone). apply apply_setDocuments_same.
  - intros e He. rewrite He. reflexivity.
Qed.

Lemma deleteDocument_removes_one_witness :
  let w := with_documents [doc_b; doc_a] initial_world in
  let O := succeed_all alice in
  let O' := with_documents_delete (Fulfilled (Failure boom)) (succeed_all alice) in
  let w1 := snd (run O (deleteDocument (state w) (id doc_a)) w) in
  let w2 := snd (run O' (deleteDocument (state w1) (id doc_a)) w1) in
  (exists before after,
      documents (state w) = before ++ doc_a :: after /\
      documents (state w1) = before ++ after) /\
  S (List.length (documents (state w1))) = List.length (documents (state w)) /\
  (forall x, In x (documents (state w1)) -> id x <> id doc_a) /\
  state w2 = state w1 /\
  (forall e, O' _ (documents_delete (id doc_a)) = Fulfilled (Failure e) ->
     toasts w2 = toasts w1
                 ++ [{| toast_title := lit "Error deleting document";
                        description := message e;
                        variant := Some destructive |}]).
Proof.
  refine (deleteDocument_removes_one (succeed_all alice)
            (with_documents_delete (Fulfilled (Failure boom)) (succeed_all alice))
            (with_documents [doc_b; doc_a] initial_world) doc_a _ _ eq_refl).
  - simpl. right; left; reflexivity.
  - simpl. repeat constructor; simpl; intuition discriminate.
Defined.

(** ** Loading *)

Lemma loadDocuments_success (O : Oracle) (props : Props) (w : World)
    (rows : list Document) :
  truthy (teamId props) = true ->
  O _ (documents_select (teamId props)) = Fulfilled (Success (Some rows)) ->
  documents (state (snd (run O (loadDocuments props) w))) = rows /\
  isLoading (state (snd (run O (loadDocuments props) w))) = false /\
  toasts (snd (run O (loadDocuments props) w)) = toasts w.
Proof.
  intros Ht HO. unfold loadDocuments. rewrite Ht. simpl. rewrite HO.
  repeat split.
Qed.

(** Without a team nothing is loaded, and the view stays in its loading
    state. *)
Lemma loads_without_team (O : Oracle) (props : Props) (w : World) :
  truthy (teamId props) = false ->
  run O (loadDocuments props) w = (Normal tt, w) /\
  run O (loadIntegrations props) w = (Normal tt, w).
Proof.
  intros Ht. unfold loadDocuments, loadIntegrations. rewrite Ht.
  split; reflexivity.
Qed.

(** The effect starts both loads before either answer is in. *)
Lemma useEffect_starts_both (props : Props) (rt : Runtime) :
  truthy (teamId props) = true ->
  network (world (useEffect props rt))
  = network (world rt)
    ++ [call (documents_select (teamId props));
        call (integrations_select (teamId props))] /\
  List.length (pending (useEffect props rt)) = List.length (pending rt) + 2 /\
  state (world (useEffect props rt)) = state (world rt).
Proof.
  intros Ht. unfold useEffect, loadDocuments, loadIntegrations.
  rewrite Ht. simpl. rewrite <- !app_assoc, !length_app. simpl.
  repeat split; lia.
Qed.

(** ** Summarize *)

Ltac ask O :=
  match goal with
  | |- context [O ?X ?r] =>
      let s := fresh "s" in
      destruct (O X r) as [s|?] eqn:?; simpl
  end.

Ltac open_answer :=
  match goal with
  | s : Response _ |- _ => destruct s; simpl in *
  | o : option _ |- _ => destruct o; simpl in *
  | c : SubscriptionCheck |- _ => destruct c as [[|]]; simpl in *
  | c : SummaryResponse |- _ => destruct c; simpl in *
  end.

(** Follows a run down every path the backend's answers can select. *)
Ltac all_paths O := repeat first [ask O | open_answer].

Lemma generateSummary_returns_idle (O : Oracle) (doc : Document) (w : World) :
  fst (run O (generateSummary doc) w) = Normal tt /\
  isSummarizing (state (snd (run O (generateSummary doc) w))) = None.
Proof.
  unfold generateSummary. simpl.
  all_paths O; split; reflexivity.
Qed.

(** A handler that starts is in flight, with the indicator on its
    document, until [getUser] settles. *)
Lemma generateSummary_starts (doc : Document) (rt : Runtime) :
  isSummarizing (state (world (exec (generateSummary doc) rt))) = Some (id doc) /\
  network (world (exec (generateSummary doc) rt))
    = network (world rt) ++ [call auth_getUser] /\
  exists k,
    pending (exec (generateSummary doc) rt)
    = pending rt ++ [{| request := auth_getUser; resume := k |}].
Proof.
  unfold generateSummary. simpl. repeat split. eexists. reflexivity.
Qed.

Lemma gate_closed_path (O : Oracle) (doc : Document) (w : World)
    (u : Response User) (o : Response (option OwnerPrivilege))
    (c : Response (option SubscriptionCheck)) :
  O _ auth_getUser = Fulfilled u ->
  O _ (owner_privileges_maybeSingle (email_or_empty (data u))) = Fulfilled o ->
  isOwner (flatten (data o)) = false ->
  O _ invoke_check_subscription = Fulfilled c ->
  is_subscribed (flatten (data c)) = false ->
  run O (generateSummary doc) w =
  (Normal tt,
   perform (setIsSummarizing None)
     (perform (toast upsell)
        (send invoke_check_subscription
           (send (owner_privileges_maybeSingle (email_or_empty (data u)))
              (send auth_getUser
                 (perform (setIsSummarizing (Some (id doc))) w)))))).
Proof.
  intros Hu Ho Hown Hc Hsub.
  unfold generateSummary. simpl.
  rewrite Hu. simpl. rewrite Ho. simpl. rewrite Hown. simpl.
  rewrite Hc. simpl. rewrite Hsub. reflexivity.
Qed.

(** C1. Let the owner-privileges table answer with a row only for the
    emails of [owners], and let the caller's email not be among them. When
    [getUser] and the lookup settle and [check-subscription] does not report
    a subscription, a summarize run sends exactly these three calls, so
    [ai-summarize] is not invoked; it shows the upsell notification and
    nothing else, and returns with the indicator cleared. *)
Theorem generateSummary_gate :
  forall (owners : list str) (O : Oracle) (w : World) (doc : Document)
         (u : Response User) (o : Response (option OwnerPrivilege))
         (c : Response (option SubscriptionCheck)),
    (forall email row,
        O _ (owner_privileges_maybeSingle email) = Fulfilled (Success (Some row)) ->
        In email owners) ->
    O _ auth_getUser = Fulfilled u ->
    ~ In (email_or_empty (data u)) owners ->
    O _ (owner_privileges_maybeSingle (email_or_empty (data u))) = Fulfilled o ->
    O _ invoke_check_subscription = Fulfilled c ->
    is_subscribed (flatten (data c)) = false ->
    let w' := snd (run O (generateSummary doc) w) in
    fst (run O (generateSummary doc) w) = Normal tt /\
    network w' = network w
                 ++ [call auth_getUser;
                     call (owner_privileges_maybeSingle (email_or_empty (data u)));
                     call invoke_check_subscription] /\
    filter is_ai_summarize (network w') = filter is_ai_summarize (network w) /\
    toasts w' = toasts w ++ [upsell] /\
    isSummarizing (state w') = None.
Proof.
  intros owners O w doc u o c Htable Hu Hnot Ho Hc Hsub w'.
  assert (Hown : isOwner (flatten (data o)) = false).
  { destruct o as [[row|]|e]; try reflexivity.
    exfalso. apply Hnot. eapply Htable. exact Ho. }
  subst w'. rewrite (@gate_closed_path O doc w u o c Hu Ho Hown Hc Hsub). simpl.
  repeat split.
  - rewrite <- !app_assoc. reflexivity.
  - rewrite <- !app_assoc, filter_app. simpl. apply app_nil_r.
Qed.

Lemma generateSummary_gate_witness :
  let O := with_check_subscription not_subscribed
             (owner_table (lit "owner@example.com") (succeed_all alice)) in
  let w' := snd (run O (generateSummary doc_a) initial_world) in
  fst (run O (generateSummary doc_a) initial_world) = Normal tt /\
  network w' = network initial_world
               ++ [call auth_getUser;
                   call (owner_privileges_maybeSingle
                           (email_or_empty (data (Success alice))));
                   call invoke_check_subscription] /\
  filter is_ai_summarize (network w')
    = filter is_ai_summarize (network initial_world) /\
  toasts w' = toasts initial_world ++ [upsell] /\
  isSummarizing (state w') = None.
Proof.
  refine (generateSummary_gate [lit "owner@example.com"]
            (with_check_subscription not_subscribed
               (owner_table (lit "owner@example.com") (succeed_all alice)))
            initial_world doc_a (u := Success alice) (o := Success None)
            (c := Success (Some {| subscribed := false |}))
            _ eq_refl _ eq_refl eq_refl eq_refl).
  - intros email row. simpl.
    destruct (eqb email (lit "owner@example.com")) eqn:E; [|discriminate].
    intros _. left. symmetry. apply eqb_eq. exact E.
  - simpl. intros [H|[]]. discriminate H.
Defined.

(** A subscriber, or an owner, gets the preview: the first 150 code units
    of the summary, followed by three dots. *)
Lemma generateSummary_preview (O : Oracle) (doc : Document) (w : World)
    (u : Response User) (o : Response (option OwnerPrivilege)) (text : str) :
  O _ auth_getUser = Fulfilled u ->
  O _ (owner_privileges_maybeSingle (email_or_empty (data u))) = Fulfilled o ->
  gate_open O o ->
  O _ (invoke_ai_summarize (content doc) (title doc))
    = Fulfilled (Success (Some {| summary := Some text |})) ->
  toasts (snd (run O (generateSummary doc) w))
  = toasts w
    ++ [{| toast_title := lit "AI Summary Generated";
           description := firstn 150 text ++ lit "...";
           variant := Some default |}].
Proof.
  intros Hu Ho Hgate Hs.
  pose proof (substring_prefix text 150) as Hsub.
  unfold generateSummary. simpl. rewrite Hu. simpl. rewrite Ho. simpl.
  destruct Hgate as [Hown | (c & Hc & Hc')].
  - rewrite Hown. simpl. rewrite Hs. simpl. unfold concat.
    rewrite Hsub. reflexivity.
  - destruct (isOwner (flatten (data o))); simpl;
      [|rewrite Hc; simpl; rewrite Hc'; simpl];
      rewrite Hs; simpl; unfold concat; rewrite Hsub; reflexivity.
Qed.

(** C10. When the owner-privileges lookup answers with an error object,
    the run is, step for step, the run in which the lookup answered "no
    row": the same completion, calls, notifications and state. The call
    after the lookup is the subscription check, and no notification is
    shown between the two. *)
Theorem owner_lookup_error_discarded :
  forall (O : Oracle) (w : World) (doc : Document) (u : Response User)
         (e : Error),
    O _ auth_getUser = Fulfilled u ->
    O _ (owner_privileges_maybeSingle (email_or_empty (data u)))
      = Fulfilled (Failure e) ->
    let not_owner := with_owner_lookup (fun _ => Fulfilled (Success None)) O in
    run O (generateSummary doc) w = run not_owner (generateSummary doc) w /\
    (exists rest,
        network (snd (run O (generateSummary doc) w))
        = network w
          ++ [call auth_getUser;
              call (owner_privileges_maybeSingle (email_or_empty (data u)));
              call invoke_check_subscription] ++ rest) /\
    (let rt := exec (generateSummary doc) {| world := w; pending := [] |} in
     let rt' := settle O 0 (settle O 0 rt) in
     toasts (world rt') = toasts w /\
     exists k,
       pending rt' = [{| request := invoke_check_subscription; resume := k |}]).
Proof.
  intros O w doc u e Hu Ho not_owner.
  split; [|split].
  - unfold generateSummary. simpl.
    rewrite Hu. simpl. rewrite Ho. simpl.
    all_paths O; reflexivity.
  - unfold generateSummary. simpl.
    rewrite Hu. simpl. rewrite Ho. simpl.
    all_paths O; eexists; rewrite <- !app_assoc; simpl; reflexivity.
  - unfold generateSummary, settle. simpl.
    rewrite Hu. simpl. rewrite Ho. simpl.
    split; [reflexivity | eexists; reflexivity].
Qed.

Lemma owner_lookup_error_discarded_witness :
  let O := with_owner_lookup (fun _ => Fulfilled (Failure boom))
             (succeed_all alice) in
  let not_owner := with_owner_lookup (fun _ => Fulfilled (Success None)) O in
  run O (generateSummary doc_a) initial_world
    = run not_owner (generateSummary doc_a) initial_world /\
  (exists rest,
      network (snd (run O (generateSummary doc_a) initial_world))
      = network initial_world
        ++ [call auth_getUser;
            call (owner_privileges_maybeSingle
                    (email_or_empty (data (Success alice))));
            call invoke_check_subscription] ++ rest) /\
  (let rt := exec (generateSummary doc_a)
                  {| world := initial_world; pending := [] |} in
   let rt' := settle O 0 (settle O 0 rt) in
   toasts (world rt') = toasts initial_world /\
   exists k,
     pending rt' = [{| request := invoke_check_subscription; resume := k |}]).
Proof.
  exact (owner_lookup_error_discarded
           (with_owner_lookup (fun _ => Fulfilled (Failure boom))
              (succeed_all alice))
           initial_world doc_a (u := Success alice) (e := boom)
           eq_refl eq_refl).
Defined.

Lemma generateSummary_throws (O : Oracle) (doc : Document) (w : World) (e : Error) :
  summarize_throws O doc e ->
  toasts (snd (run O (generateSummary doc) w))
  = toasts w ++ [error_toast "Error generating summary" e].
Proof.
  intros H. unfold generateSummary. simpl.
  destruct H as [e He | u e Hu He | u o e Hu Ho Hown He
                 | u o e Hu Ho Hgate He | u o Hu Ho Hgate He
                 | u o Hu Ho Hgate He];
    try (rewrite He; reflexivity);
    rewrite Hu; simpl; try (rewrite He; reflexivity);
    rewrite Ho; simpl.
  - rewrite Hown. simpl. rewrite He. reflexivity.
  - destruct Hgate as [Hown | (c & Hc & Hsub)].
    + rewrite Hown. simpl. destruct He as [-> | ->]; reflexivity.
    + destruct (isOwner (flatten (data o))); simpl;
        [|rewrite Hc; simpl; rewrite Hsub; simpl];
        destruct He as [-> | ->]; reflexivity.
  - destruct Hgate as [Hown | (c & Hc & Hsub)].
    + rewrite Hown. simpl. rewrite He. reflexivity.
    + destruct (isOwner (flatten (data o))); simpl;
        [|rewrite Hc; simpl; rewrite Hsub; simpl];
        rewrite He; reflexivity.
  - destruct Hgate as [Hown | (c & Hc & Hsub)].
    + rewrite Hown. simpl. rewrite He. reflexivity.
    + destruct (isOwner (flatten (data o))); simpl;
        [|rewrite Hc; simpl; rewrite Hsub; simpl];
        rewrite He; reflexivity.
Qed.

(** An error object returned by [check-subscription] reads as "not
    subscribed". *)
Lemma check_subscription_error_upsell (O : Oracle) (doc : Document) (w : World)
    (u : Response User) (o : Response (option OwnerPrivilege)) (e : Error) :
  O _ auth_getUser = Fulfilled u ->
  O _ (owner_privileges_maybeSingle (email_or_empty (data u))) = Fulfilled o ->
  isOwner (flatten (data o)) = false ->
  O _ invoke_check_subscription = Fulfilled (Failure e) ->
  toasts (snd (run O (generateSummary doc) w)) = toasts w ++ [upsell].
Proof.
  intros Hu Ho Hown Hc.
  rewrite (@gate_closed_path O doc w u o (Failure e) Hu Ho Hown Hc eq_refl).
  reflexivity.
Qed.

(** The handlers other than [generateSummary] leave the indicator alone. *)
Lemma indicator_written_by_summarize_only (O : Oracle) (props : Props)
    (s : State) (doc : Document) (docId : str) (w : World) :
  isSummarizing (state (snd (run O (loadDocuments props) w)))
    = isSummarizing (state w) /\
  isSummarizing (state (snd (run O (loadIntegrations props) w)))
    = isSummarizing (state w) /\
  isSummarizing (state (snd (run O (createDocument props s) w)))
    = isSummarizing (state w) /\
  isSummarizing (state (snd (run O (updateDocument s doc) w)))
    = isSummarizing (state w) /\
  isSummarizing (state (snd (run O (deleteDocument s docId) w)))
    = isSummarizing (state w).
Proof.
  unfold loadDocuments, loadIntegrations, createDocument, updateDocument,
    deleteDocument.
  repeat split.
  - destruct (truthy (teamId props)); simpl; [all_paths O|]; reflexivity.
  - destruct (truthy (teamId props)); simpl; [all_paths O|]; reflexivity.
  - destruct (truthy (trim (newDocTitle s))); simpl; [all_paths O|]; reflexivity.
  - simpl. all_paths O; reflexivity.
  - simpl. all_paths O; reflexivity.
Qed.

(** C8. The indicator goes idle, summarizing, idle. A started handler sets
    it to the document's identifier and waits for [getUser]; no other
    handler writes it; and every run, whatever the backend answers at each
    step, completes normally with the indicator cleared. A throw at a remote
    step (a rejected promise, an error returned by [ai-summarize], an answer
    without a summary text) is shown as a destructive notification with the
    error's message. An error object returned by [check-subscription] is not
    shown: the run ends in the upsell notification. *)
Theorem summarize_state_machine :
  forall (O : Oracle) (doc : Document) (w : World),
    let started := exec (generateSummary doc) {| world := w; pending := [] |} in
    let finished := run O (generateSummary doc) w in
    (isSummarizing (state (world started)) = Some (id doc) /\
     exists k, pending started = [{| request := auth_getUser; resume := k |}]) /\
    (forall props s d docId,
        isSummarizing (state (snd (run O (loadDocuments props) w)))
          = isSummarizing (state w) /\
        isSummarizing (state (snd (run O (loadIntegrations props) w)))
          = isSummarizing (state w) /\
        isSummarizing (state (snd (run O (createDocument props s) w)))
          = isSummarizing (state w) /\
        isSummarizing (state (snd (run O (updateDocument s d) w)))
          = isSummarizing (state w) /\
        isSummarizing (state (snd (run O (deleteDocument s docId) w)))
          = isSummarizing (state w)) /\
    (fst finished = Normal tt /\
     isSummarizing (state (snd finished)) = None) /\
    (forall e, summarize_throws O doc e ->
       toasts (snd finished)
       = toasts w ++ [error_toast "Error generating summary" e]) /\
    (forall u o e,
        O _ auth_getUser = Fulfilled u ->
        O _ (owner_privileges_maybeSingle (email_or_empty (data u)))
          = Fulfilled o ->
        isOwner (flatten (data o)) = false ->
        O _ invoke_check_subscription = Fulfilled (Failure e) ->
        toasts (snd finished) = toasts w ++ [upsell]).
Proof.
  intros O doc w started finished.
  split; [|split; [|split; [|split]]].
  - destruct (generateSummary_starts doc {| world := w; pending := [] |})
      as (Hs & _ & Hk).
    split; [exact Hs | exact Hk].
  - intros props s d docId.
    apply indicator_written_by_summarize_only.
  - apply generateSummary_returns_idle.
  - intros e He. apply generateSummary_throws. exact He.
  - intros u o e Hu Ho Hown Hc.
    eapply check_subscription_error_upsell; eassumption.
Qed.

Lemma summarize_state_machine_witness :
  let O := with_ai_summarize (Fulfilled (Failure boom))
             (owner_table (lit "alice@example.com") (succeed_all alice)) in
  toasts (snd (run O (generateSummary doc_a) initial_world))
  = toasts initial_world ++ [error_toast "Error generating summary" boom].
Proof.
  refine (proj1 (proj2 (proj2 (proj2
            (summarize_state_machine
               (with_ai_summarize (Fulfilled (Failure boom))
                  (owner_table (lit "alice@example.com") (succeed_all alice)))
               doc_a initial_world)))) boom _).
  apply (@ai_summarize_failed _ _ (Success alice)
           (Success (Some {| owner_email := lit "alice@example.com" |})) boom);
    [reflexivity | reflexivity | left; reflexivity | left; reflexivity].
Defined.

(** Against C8 as worded, where [check-subscription] answers with an
    error object: the call goes out and fails with "boom", the only
    notification is the upsell, and none carries the error's message. *)
Lemma summarize_failure_not_surfaced :
  let O := with_check_subscription (Fulfilled (Failure boom))
             (succeed_all alice) in
  let w' := snd (run O (generateSummary doc_a) initial_world) in
  O _ invoke_check_subscription = Fulfilled (Failure boom) /\
  In (call invoke_check_subscription) (network w') /\
  toasts w' = [upsell] /\
  ~ exists t, In t (toasts w') /\ description t = message boom.
Proof.
  simpl. split; [reflexivity|]. split; [right; right; left; reflexivity|].
  split; [reflexivity|].
  intros (t & [<- | []] & H). discriminate H.
Qed.

(** ** Failures at the call sites *)

Lemma loadDocuments_failure (O : Oracle) (props : Props) (w : World) (e : Error) :
  truthy (teamId props) = true ->
  fails_with (O _ (documents_select (teamId props))) e ->
  toasts (snd (run O (loadDocuments props) w))
    = toasts w ++ [error_toast "Error loading documents" e] /\
  documents (state (snd (run O (loadDocuments props) w)))
    = documents (state w) /\
  isLoading (state (snd (run O (loadDocuments props) w))) = false.
Proof.
  intros Ht Hf. unfold loadDocuments. rewrite Ht. simpl.
  destruct Hf as [-> | ->]; repeat split.
Qed.

Lemma loadIntegrations_failure (O : Oracle) (props : Props) (w : World) (e : Error) :
  truthy (teamId props) = true ->
  fails_with (O _ (integrations_select (teamId props))) e ->
  toasts (snd (run O (loadIntegrations props) w)) = toasts w /\
  console (snd (run O (loadIntegrations props) w))
    = console w ++ [(lit "Error loading integrations:", e)] /\
  state (snd (run O (loadIntegrations props) w)) = state w.
Proof.
  intros Ht Hf. unfold loadIntegrations. rewrite Ht. simpl.
  destruct Hf as [-> | ->]; repeat split.
Qed.

Lemma createDocument_failure (O : Oracle) (props : Props) (s : State)
    (w : World) (e : Error) :
  truthy (trim (newDocTitle s)) = true ->
  fails_with (O _ (documents_insert (newDocTitle s) (newDocContent s)
                     (teamId props) (user_id (user props)))) e ->
  toasts (snd (run O (createDocument props s) w))
    = toasts w ++ [error_toast "Error creating document" e] /\
  state (snd (run O (createDocument props s) w)) = state w.
Proof.
  intros Ht Hf. unfold createDocument. rewrite Ht. simpl.
  destruct Hf as [-> | ->]; repeat split.
Qed.

Lemma updateDocument_failure (O : Oracle) (s : State) (doc : Document)
    (w : World) (e : Error) :
  fails_with (O _ (documents_update (title doc) (content doc) (id doc))) e ->
  toasts (snd (run O (updateDocument s doc) w))
    = toasts w ++ [error_toast "Error updating document" e] /\
  state (snd (run O (updateDocument s doc) w)) = state w.
Proof.
  intros Hf. unfold updateDocument. simpl.
  destruct Hf as [-> | ->]; repeat split.
Qed.

Lemma deleteDocument_failure (O : Oracle) (s : State) (docId : str)
    (w : World) (e : Error) :
  fails_with (O _ (documents_delete docId)) e ->
  toasts (snd (run O (deleteDocument s docId) w))
    = toasts w ++ [error_toast "Error deleting document" e] /\
  state (snd (run O (deleteDocument s docId) w)) = state w.
Proof.
  intros Hf. unfold deleteDocument. simpl.
  destruct Hf as [-> | ->]; repeat split.
Qed.

(** No handler lets an exception escape. *)
Lemma handlers_complete (O : Oracle) (props : Props) (s : State)
    (doc : Document) (docId : str) (w : World) :
  fst (run O (loadDocuments props) w) = Normal tt /\
  fst (run O (loadIntegrations props) w) = Normal tt /\
  fst (run O (createDocument props s) w) = Normal tt /\
  fst (run O (updateDocument s doc) w) = Normal tt /\
  fst (run O (deleteDocument s docId) w) = Normal tt /\
  fst (run O (generateSummary doc) w) = Normal tt.
Proof.
  repeat split.
  - unfold loadDocuments.
    destruct (truthy (teamId props)); simpl; [all_paths O|]; reflexivity.
  - unfold loadIntegrations.
    destruct (truthy (teamId props)); simpl; [all_paths O|]; reflexivity.
  - unfold createDocument.
    destruct (truthy (trim (newDocTitle s))); simpl; [all_paths O|];
      reflexivity.
  - unfold updateDocument. simpl. all_paths O; reflexivity.
  - unfold deleteDocument. simpl. all_paths O; reflexivity.
  - apply generateSummary_returns_idle.
Qed.

(** C4. No backend failure crashes the view: each of the six handlers
    completes normally whatever the backend answers. A failed select,
    insert, update or delete of a document (an error object or a rejected
    promise) is shown as a destructive notification carrying the error's
    message, and so is a throw at a remote step of summarize. A failed
    select of the integrations is written to the console and shown by no
    notification. *)
Theorem backend_failures_handled :
  forall (O : Oracle) (props : Props) (s : State) (doc : Document)
         (docId : str) (w : World),
    (fst (run O (loadDocuments props) w) = Normal tt /\
     fst (run O (loadIntegrations props) w) = Normal tt /\
     fst (run O (createDocument props s) w) = Normal tt /\
     fst (run O (updateDocument s doc) w) = Normal tt /\
     fst (run O (deleteDocument s docId) w) = Normal tt /\
     fst (run O (generateSummary doc) w) = Normal tt) /\
    (forall e,
        truthy (teamId props) = true ->
        fails_with (O _ (documents_select (teamId props))) e ->
        toasts (snd (run O (loadDocuments props) w))
          = toasts w ++ [error_toast "Error loading documents" e] /\
        documents (state (snd (run O (loadDocuments props) w)))
          = documents (state w) /\
        isLoading (state (snd (run O (loadDocuments props) w))) = false) /\
    (forall e,
        truthy (trim (newDocTitle s)) = true ->
        fails_with (O _ (documents_insert (newDocTitle s) (newDocContent s)
                           (teamId props) (user_id (user props)))) e ->
        toasts (snd (run O (createDocument props s) w))
          = toasts w ++ [error_toast "Error creating document" e] /\
        state (snd (run O (createDocument props s) w)) = state w) /\
    (forall e,
        fails_with (O _ (documents_update (title doc) (content doc) (id doc))) e ->
        toasts (snd (run O (updateDocument s doc) w))
          = toasts w ++ [error_toast "Error updating document" e] /\
        state (snd (run O (updateDocument s doc) w)) = state w) /\
    (forall e,
        fails_with (O _ (documents_delete docId)) e ->
        toasts (snd (run O (deleteDocument s docId) w))
          = toasts w ++ [error_toast "Error deleting document" e] /\
        state (snd (run O (deleteDocument s docId) w)) = state w) /\
    (forall e,
        summarize_throws O doc e ->
        toasts (snd (run O (generateSummary doc) w))
          = toasts w ++ [error_toast "Error generating summary" e]) /\
    (forall e,
        truthy (teamId props) = true ->
        fails_with (O _ (integrations_select (teamId props))) e ->
        toasts (snd (run O (loadIntegrations props) w)) = toasts w /\
        console (snd (run O (loadIntegrations props) w))
          = console w ++ [(lit "Error loading integrations:", e)] /\
        state (snd (run O (loadIntegrations props) w)) = state w).
Proof.
  intros O props s doc docId w.
  split; [apply handlers_complete|].
  split; [intros e; apply loadDocuments_failure|].
  split; [intros e; apply createDocument_failure|].
  split; [intros e; apply updateDocument_failure|].
  split; [intros e; apply deleteDocument_failure|].
  split; [intros e; apply generateSummary_throws|].
  intros e; apply loadIntegrations_failure.
Qed.

Lemma backend_failures_handled_witness :
  let O := reject_all boom in
  let w := initial_world in
  (toasts (snd (run O (loadDocuments sample_props) w))
     = toasts w ++ [error_toast "Error loading documents" boom] /\
   documents (state (snd (run O (loadDocuments sample_props) w)))
     = documents (state w) /\
   isLoading (state (snd (run O (loadDocuments sample_props) w))) = false) /\
  (toasts (snd (run O (loadIntegrations sample_props) w)) = toasts w /\
   console (snd (run O (loadIntegrations sample_props) w))
     = console w ++ [(lit "Error loading integrations:", boom)] /\
   state (snd (run O (loadIntegrations sample_props) w)) = state w).
Proof.
  pose proof (backend_failures_handled (reject_all boom) sample_props
                (state initial_world) doc_a (id doc_a) initial_world)
    as (_ & Hload & _ & _ & _ & _ & Hint).
  split.
  - apply (Hload boom); [reflexivity | right; reflexivity].
  - apply (Hint boom); [reflexivity | right; reflexivity].
Defined.

(** Against C4 as worded, at the integrations load: the select goes
    out and fails with "boom", and the user is shown nothing; the error is
    on the console only. *)
Lemma loadIntegrations_failure_not_shown :
  let O := with_integrations_select (Fulfilled (Failure boom))
             (succeed_all alice) in
  let w' := snd (run O (loadIntegrations sample_props) initial_world) in
  network w' = [call (integrations_select (lit "team-1"))] /\
  O _ (integrations_select (lit "team-1")) = Fulfilled (Failure boom) /\
  toasts w' = [] /\
  console w' = [(lit "Error loading integrations:", boom)].
Proof.
  repeat split.
Qed.

(** ** The summarize button *)

Lemma spinner_implies_disabled (s : State) (doc : Document) :
  icon (summarize_button s doc) = Loader2 ->
  disabled (summarize_button s doc) = true.
Proof.
  unfold summarize_button; simpl.
  destruct (isSummarizing_is s (id doc)); [reflexivity | discriminate].
Qed.

Lemma click_disabled (b : Button) (rt : Runtime) :
  disabled b = true -> click b rt = rt.
Proof. unfold click; intros ->; reflexivity. Qed.

(** While the cell holds a document's identifier, a click on its button is
    lost. *)
Lemma click_on_spinner_ignored (doc : Document) (rt : Runtime) :
  isSummarizing (state (world rt)) = Some (id doc) ->
  icon (summarize_button (state (world rt)) doc) = Loader2 /\
  click_summarize doc rt = rt.
Proof.
  intros H.
  assert (S : isSummarizing_is (state (world rt)) (id doc) = true)
    by (unfold isSummarizing_is; rewrite H; apply eqb_refl).
  unfold click_summarize, click, summarize_button; simpl.
  rewrite S. split; reflexivity.
Qed.

Lemma click_summarize_fires (doc : Document) (rt : Runtime) :
  is_integration doc = false ->
  isSummarizing_is (state (world rt)) (id doc) = false ->
  click_summarize doc rt = exec (generateSummary doc) rt.
Proof.
  intros Hint Hslot. unfold click_summarize, click, summarize_button; simpl.
  rewrite Hint, Hslot. reflexivity.
Qed.

Lemma exec_generateSummary_slot (doc : Document) (rt : Runtime) (docId : str) :
  isSummarizing_is (state (world (exec (generateSummary doc) rt))) docId
  = eqb (id doc) docId.
Proof. reflexivity. Qed.

(** The button taken by itself, whatever the page draws. A click on an
    enabled summarize button fires the handler and puts the document's
    identifier in the cell; while it is there the button shows the spinner
    and is disabled, and a click on it does nothing. A click on another
    document's button takes the cell over: the first document's button
    shows the brain icon again and is enabled, though its first run has not
    settled, and a click on it fires the handler a second time. *)
Theorem summarize_indicator_single_slot :
  forall (rt : Runtime) (d1 d2 : Document),
    is_integration d1 = false ->
    is_integration d2 = false ->
    id d1 <> id d2 ->
    isSummarizing_is (state (world rt)) (id d1) = false ->
    let rt1 := click_summarize d1 rt in
    let rt2 := click_summarize d2 rt1 in
    let rt3 := click_summarize d1 rt2 in
    (rt1 = exec (generateSummary d1) rt /\
     isSummarizing (state (world rt1)) = Some (id d1) /\
     icon (summarize_button (state (world rt1)) d1) = Loader2 /\
     disabled (summarize_button (state (world rt1)) d1) = true /\
     click_summarize d1 rt1 = rt1) /\
    (rt2 = exec (generateSummary d2) rt1 /\
     isSummarizing (state (world rt2)) = Some (id d2) /\
     icon (summarize_button (state (world rt2)) d1) = Brain /\
     disabled (summarize_button (state (world rt2)) d1) = false) /\
    (rt3 = exec (generateSummary d1) rt2 /\
     List.length (pending rt3) = List.length (pending rt) + 3 /\
     network (world rt3)
     = network (world rt)
       ++ [call auth_getUser; call auth_getUser; call auth_getUser]).
Proof.
  intros rt d1 d2 Hint1 Hint2 Hne Hslot rt1 rt2 rt3.
  assert (E1 : rt1 = exec (generateSummary d1) rt)
    by (apply click_summarize_fires; assumption).
  assert (S1 : isSummarizing_is (state (world rt1)) (id d1) = true)
    by (rewrite E1, exec_generateSummary_slot; apply eqb_refl).
  assert (S12 : isSummarizing_is (state (world rt1)) (id d2) = false)
    by (rewrite E1, exec_generateSummary_slot; apply eqb_neq; exact Hne).
  assert (E2 : rt2 = exec (generateSummary d2) rt1)
    by (apply click_summarize_fires; assumption).
  assert (S21 : isSummarizing_is (state (world rt2)) (id d1) = false)
    by (rewrite E2, exec_generateSummary_slot; apply eqb_neq; congruence).
  assert (E3 : rt3 = exec (generateSummary d1) rt2)
    by (apply click_summarize_fires; assumption).
  repeat split.
  - exact E1.
  - rewrite E1. reflexivity.
  - unfold summarize_button; simpl. rewrite S1. reflexivity.
  - unfold summarize_button; simpl. rewrite S1. reflexivity.
  - unfold click_summarize at 1. apply click_disabled.
    unfold summarize_button; simpl. fold rt1. rewrite S1. reflexivity.
  - exact E2.
  - rewrite E2. reflexivity.
  - unfold summarize_button; simpl. rewrite S21. reflexivity.
  - unfold summarize_button; simpl. rewrite S21, Hint1. reflexivity.
  - exact E3.
  - rewrite E3, E2, E1. simpl. rewrite !length_app. simpl. lia.
  - rewrite E3, E2, E1. simpl. rewrite <- !app_assoc. reflexivity.
Qed.

Lemma summarize_indicator_single_slot_witness :
  let rt := initial_runtime in
  let rt1 := click_summarize doc_a rt in
  let rt2 := click_summarize doc_b rt1 in
  let rt3 := click_summarize doc_a rt2 in
  (rt1 = exec (generateSummary doc_a) rt /\
   isSummarizing (state (world rt1)) = Some (id doc_a) /\
   icon (summarize_button (state (world rt1)) doc_a) = Loader2 /\
   disabled (summarize_button (state (world rt1)) doc_a) = true /\
   click_summarize doc_a rt1 = rt1) /\
  (rt2 = exec (generateSummary doc_b) rt1 /\
   isSummarizing (state (world rt2)) = Some (id doc_b) /\
   icon (summarize_button (state (world rt2)) doc_a) = Brain /\
   disabled (summarize_button (state (world rt2)) doc_a) = false) /\
  (rt3 = exec (generateSummary doc_a) rt2 /\
   List.length (pending rt3) = List.length (pending rt) + 3 /\
   network (world rt3)
   = network (world rt)
     ++ [call auth_getUser; call auth_getUser; call auth_getUser]).
Proof.
  refine (summarize_indicator_single_slot initial_runtime doc_a doc_b
            eq_refl eq_refl _ eq_refl).
  simpl. discriminate.
Defined.

(** The button taken by itself, on the first duplicate click: with the
    summarization of [doc_a] in flight and its spinner shown, a click on the
    same button changes nothing, and no second call goes out. With a second
    document started, [doc_a] is still in flight and shows no spinner. *)
Lemma duplicate_click_does_not_fire :
  let rt1 := click_summarize doc_a initial_runtime in
  let rt2 := click_summarize doc_b rt1 in
  (List.length (pending rt1) = 1 /\
   icon (summarize_button (state (world rt1)) doc_a) = Loader2 /\
   click_summarize doc_a rt1 = rt1 /\
   network (world (click_summarize doc_a rt1)) = [call auth_getUser]) /\
  (List.length (pending rt2) = 2 /\
   icon (summarize_button (state (world rt2)) doc_a) = Brain).
Proof.
  repeat split.
Qed.

(** The completion of any run clears the cell, whichever document it
    holds: here the run of [doc_b] ends while that of [doc_a] is in
    flight. *)
Lemma indicator_cleared_by_other_completion :
  let rt2 := click_summarize doc_b (click_summarize doc_a initial_runtime) in
  let rt3 := settle (reject_all boom) 1 rt2 in
  isSummarizing (state (world rt2)) = Some (id doc_b) /\
  isSummarizing (state (world rt3)) = None /\
  List.length (pending rt3) = 1 /\
  toasts (world rt3) = [error_toast "Error generating summary" boom] /\
  disabled (summarize_button (state (world rt3)) doc_a) = false.
Proof.
  repeat split.
Qed.

(** ** The event loop and the one-shot run agree *)

Lemma exec_settle_run (O : Oracle) (p : Prog unit) :
  forall w,
  exists n,
    Nat.iter n (settle O 0) (exec p {| world := w; pending := [] |})
    = {| world := settled_world (run O p w); pending := [] |}.
Proof.
  induction p as [c | a k IH | X r k IH]; intros w.
  - exists 0. destruct c as [[]| |e]; reflexivity.
  - destruct (IH (perform a w)) as [n Hn]. exists n. exact Hn.
  - destruct (IH (O _ r) (send r w)) as [n Hn]. exists (S n).
    rewrite Nat.iter_succ_r. exact Hn.
Qed.

(** ** Session observer *)

Lemma observer_invariant_step (w : AppContent.World) (e : AppContent.Event) :
  observer_invariant w -> observer_invariant (AppContent.step w e).
Proof.
  unfold observer_invariant.
  destruct w as [s ph l p u late]; destruct e as [|session|[r|err]|];
    destruct ph; simpl; intros H; try exact H; try tauto;
    try (destruct l; simpl; [|tauto]); try (destruct p; simpl; [|tauto]);
    simpl; try tauto.
  all: try (intuition (subst; simpl; eauto; try discriminate); fail).
  - (* fulfilled after the unmount *)
    destruct H as (Hl & Hu & [[_ ->] | [Hp _]]); [|discriminate].
    repeat split; auto. right. split; auto. right. exists r. reflexivity.
  - (* unmount *)
    destruct H as (_ & -> & ->). repeat split.
    destruct p; auto.
Qed.

Lemma observer_invariant_steps (es : list AppContent.Event) :
  forall w, observer_invariant w -> observer_invariant (AppContent.steps es w).
Proof.
  unfold AppContent.steps.
  induction es as [|e es IH]; simpl; intros w H; [exact H|].
  apply IH, observer_invariant_step, H.
Qed.

Lemma observer_invariant_reachable (es : list AppContent.Event) :
  observer_invariant (AppContent.steps es AppContent.initial_world).
Proof.
  apply observer_invariant_steps. unfold observer_invariant. simpl.
  repeat split.
Qed.

(** Whichever of the listener and the [getSession] continuation runs first
    on the mounted component ends the loading state. *)
Lemma first_answer_ends_loading (session : option Session)
    (r : Response (option Session)) :
  let w := AppContent.step AppContent.initial_world AppContent.Mount in
  AppContent.isLoading (AppContent.state w) = true /\
  AppContent.isLoading (AppContent.state (AppContent.step w (AppContent.AuthStateChange session))) = false /\
  AppContent.isLoading (AppContent.state (AppContent.step w (AppContent.GetSessionSettled (Fulfilled r))))
    = false.
Proof. repeat split. Qed.

(** The calls the callbacks make. After any sequence of events:
    [unsubscribe] has run exactly once if the component is unmounted and
    not at all otherwise, and no setter is called after the unmount by the
    listener, which an auth-state change no longer reaches. The [getSession]
    continuation is not cancelled: if the promise is fulfilled after the
    unmount, the continuation calls [setSession], [setUser] and
    [setIsLoading], once each, and these are the only setter calls ever made
    after the unmount; a rejected promise makes none. *)
Theorem session_observer_after_unmount :
  forall (es : list AppContent.Event),
    let w := AppContent.steps es AppContent.initial_world in
    AppContent.unsubscribes w
      = match AppContent.phase w with AppContent.Unmounted => 1 | _ => 0 end /\
    (AppContent.phase w <> AppContent.Unmounted -> AppContent.late_updates w = []) /\
    (AppContent.phase w = AppContent.Unmounted ->
       AppContent.listener w = false /\
       forall session, AppContent.step w (AppContent.AuthStateChange session) = w) /\
    (AppContent.late_updates w = [] \/
     exists r, AppContent.late_updates w = AppContent.getSession_then r) /\
    (forall r,
        AppContent.phase w = AppContent.Unmounted ->
        AppContent.getSession_pending w = true ->
        AppContent.late_updates w = [] /\
        AppContent.late_updates (AppContent.step w (AppContent.GetSessionSettled (Fulfilled r)))
          = AppContent.getSession_then r) /\
    (forall err,
        AppContent.late_updates (AppContent.step w (AppContent.GetSessionSettled (Rejected err)))
          = AppContent.late_updates w).
Proof.
  intros es w.
  pose proof (observer_invariant_reachable es) as Inv. fold w in Inv.
  unfold observer_invariant in Inv.
  split; [|split; [|split; [|split; [|split]]]].
  - destruct (AppContent.phase w); tauto.
  - destruct (AppContent.phase w); tauto.
  - intros Hph. rewrite Hph in Inv. destruct Inv as (Hl & _).
    split; [exact Hl|]. intros session. simpl. rewrite Hl. reflexivity.
  - destruct (AppContent.phase w); tauto.
  - intros r Hph Hp. rewrite Hph in Inv.
    destruct Inv as (_ & _ & [[_ Hlate] | [Hp' _]]); [|congruence].
    split; [exact Hlate|].
    simpl. rewrite Hp. unfold AppContent.perform_all, AppContent.getSession_then. simpl.
    rewrite Hph, Hlate. reflexivity.
  - intros err. simpl. destruct (AppContent.getSession_pending w); reflexivity.
Qed.

Lemma session_observer_after_unmount_witness :
  let w := AppContent.steps [AppContent.Mount; AppContent.Unmount] AppContent.initial_world in
  let r := Success (Some alice_session) in
  AppContent.late_updates w = [] /\
  AppContent.late_updates (AppContent.step w (AppContent.GetSessionSettled (Fulfilled r)))
    = AppContent.getSession_then r.
Proof.
  exact (proj1 (proj2 (proj2 (proj2 (proj2
           (session_observer_after_unmount [AppContent.Mount; AppContent.Unmount])))))
           (Success (Some alice_session)) eq_refl eq_refl).
Defined.

(** The calls of the continuation when the promise is fulfilled after
    the unmount: one [unsubscribe] has run, and the three setters are called
    all the same. *)
Lemma late_update_after_unmount :
  let w := AppContent.steps
             [AppContent.Mount; AppContent.Unmount;
              AppContent.GetSessionSettled (Fulfilled (Success (Some alice_session)))]
             AppContent.initial_world in
  AppContent.phase w = AppContent.Unmounted /\
  AppContent.unsubscribes w = 1 /\
  AppContent.late_updates w
  = [AppContent.setSession (Some alice_session); AppContent.setUser (Some alice);
     AppContent.setIsLoading false] /\
  AppContent.late_updates w <> [].
Proof.
  simpl. repeat split. discriminate.
Qed.

(** * Further properties of the document manager *)

(** ** Create and the loads *)

(** X1. A create with a title that is not blank, answered with the new
    row, sends the one insert built from the two input fields, the team and
    the user; the row becomes the head of the list, the fields are emptied,
    the dialog is closed, the success notification is shown, and the other
    state cells are left alone. *)
Theorem createDocument_adds_at_head :
  forall (props : Props) (O : Oracle) (w : World) (row : Document),
    forallb is_white_space (newDocTitle (state w)) = false ->
    O _ (documents_insert (newDocTitle (state w)) (newDocContent (state w))
           (teamId props) (user_id (user props)))
      = Fulfilled (Success row) ->
    let w' := snd (run O (createDocument props (state w)) w) in
    state w'
    = {| documents := row :: documents (state w);
         integrations := integrations (state w);
         isLoading := isLoading (state w);
         editingDoc := editingDoc (state w);
         newDocTitle := []; newDocContent := [];
         isCreateDialogOpen := false;
         isSummarizing := isSummarizing (state w);
         viewingContent := viewingContent (state w) |} /\
    network w'
    = network w
      ++ [call (documents_insert (newDocTitle (state w))
                  (newDocContent (state w)) (teamId props)
                  (user_id (user props)))] /\
    toasts w'
    = toasts w
      ++ [{| toast_title := lit "Document created";
             description := lit "Your document has been created successfully.";
             variant := None |}].
Proof.
  intros props O w row Hblank HO w'. subst w'.
  unfold createDocument.
  destruct (trim (newDocTitle (state w))) as [|c t] eqn:E.
  - apply trim_nil_blank in E. congruence.
  - simpl. rewrite HO. repeat split.
Qed.

Lemma createDocument_adds_at_head_witness :
  let w := with_newDocTitle (lit "Roadmap") initial_world in
  documents (state (snd (run (succeed_all alice)
                           (createDocument sample_props (state w)) w)))
  = [{| id := lit "new"; title := Some (lit "Roadmap");
        content := Some []; team_id := lit "team-1"; owner_id := lit "u-1";
        updated_at := None; is_integration := false |}].
Proof.
  exact (f_equal documents
           (proj1 (createDocument_adds_at_head sample_props (succeed_all alice)
                     (with_newDocTitle (lit "Roadmap") initial_world)
                     eq_refl eq_refl))).
Defined.

(** X2. For a team, [loadDocuments] sends one select and, whatever the
    answer, an error and a rejection included, ends the loading state. On
    success the list is replaced by the rows that came back, by the empty
    list when [data] is null, and nothing is shown. *)
Theorem loadDocuments_ends_loading :
  forall (props : Props) (O : Oracle) (w : World),
    truthy (teamId props) = true ->
    let w' := snd (run O (loadDocuments props) w) in
    isLoading (state w') = false /\
    network w' = network w ++ [call (documents_select (teamId props))] /\
    (forall rows,
        O _ (documents_select (teamId props)) = Fulfilled (Success rows) ->
        documents (state w') = or_empty rows /\ toasts w' = toasts w).
Proof.
  intros props O w Ht w'. subst w'. unfold loadDocuments. rewrite Ht. simpl.
  destruct (O _ (documents_select (teamId props))) as [[rows|e]|e] eqn:HO;
    simpl; (split; [|split]); try reflexivity;
    intros rows' H; inversion H; subst; split; reflexivity.
Qed.

Lemma loadDocuments_ends_loading_witness :
  let w' := snd (run (succeed_all alice) (loadDocuments sample_props)
                   (with_documents [doc_a] initial_world)) in
  isLoading (state w') = false /\ documents (state w') = [].
Proof.
  pose proof (loadDocuments_ends_loading sample_props (succeed_all alice)
                (with_documents [doc_a] initial_world) eq_refl)
    as (Hl & _ & Hrows).
  split; [exact Hl | exact (proj1 (Hrows (Some []) eq_refl))].
Defined.

(** X3. [loadIntegrations] shows no notification, and touches neither the
    documents nor the loading state, whatever the backend answers; the rows
    of a successful answer become the integrations list. *)
Theorem loadIntegrations_silent :
  forall (props : Props) (O : Oracle) (w : World),
    let w' := snd (run O (loadIntegrations props) w) in
    toasts w' = toasts w /\
    documents (state w') = documents (state w) /\
    isLoading (state w') = isLoading (state w) /\
    (forall rows,
        truthy (teamId props) = true ->
        O _ (integrations_select (teamId props)) = Fulfilled (Success rows) ->
        integrations (state w') = or_empty rows).
Proof.
  intros props O w w'. subst w'. unfold loadIntegrations.
  destruct (truthy (teamId props)) eqn:Ht; simpl.
  - destruct (O _ (integrations_select (teamId props))) as [[rows|e]|e] eqn:HO;
      simpl; (split; [|split; [|split]]); try reflexivity;
      intros rows' _ H; inversion H; subst; reflexivity.
  - (split; [|split; [|split]]); try reflexivity.
    intros rows H; discriminate H.
Qed.

Lemma loadIntegrations_silent_witness :
  integrations (state (snd (run (succeed_all alice)
                              (loadIntegrations sample_props) initial_world)))
  = [].
Proof.
  exact (proj2 (proj2 (proj2 (loadIntegrations_silent sample_props
                                (succeed_all alice) initial_world)))
           (Some []) eq_refl eq_refl).
Defined.

(** ** Identifiers *)

Lemma map_id_update (doc : Document) (l : list Document) :
  map id (map (fun d => if eqb (id d) (id doc) then doc else d) l) = map id l.
Proof.
  induction l as [|x l IH]; simpl; [reflexivity|].
  rewrite IH. destruct (eqb (id x) (id doc)) eqn:E; [|reflexivity].
  apply eqb_eq in E. rewrite E. reflexivity.
Qed.

(** Dropping rows keeps the identifiers of the remaining rows distinct. *)
Lemma distinct_ids_after_filter (keep : Document -> bool) :
  forall rows : list Document,
    NoDup (map id rows) -> NoDup (map id (filter keep rows)).
Proof.
  intros rows. induction rows as [|row rest IHrest]; simpl.
  - intros _. constructor.
  - intros Hdistinct. apply NoDup_cons_iff in Hdistinct as [Hfresh Hrest].
    destruct (keep row); simpl; [|exact (IHrest Hrest)].
    apply NoDup_cons; [|exact (IHrest Hrest)].
    rewrite in_map_iff. intros (other & Hid & Hother).
    apply Hfresh. rewrite <- Hid. apply in_map.
    apply filter_In in Hother. exact (proj1 Hother).
Qed.

(** X4. Pairwise distinct identifiers stay pairwise distinct. A
    successful update leaves the sequence of identifiers of the list as it
    was; a successful delete keeps them distinct; so does a successful
    create when the row that came back carries an identifier not yet in the
    list. *)
Theorem distinct_identifiers_preserved :
  forall (props : Props) (O : Oracle) (w : World) (doc : Document)
         (docId : str),
    NoDup (map id (documents (state w))) ->
    (O _ (documents_update (title doc) (content doc) (id doc))
       = Fulfilled (Success tt) ->
     map id (documents (state (snd (run O (updateDocument (state w) doc) w))))
     = map id (documents (state w))) /\
    (O _ (documents_delete docId) = Fulfilled (Success tt) ->
     NoDup (map id (documents
                      (state (snd (run O (deleteDocument (state w) docId) w)))))) /\
    (forall row,
        forallb is_white_space (newDocTitle (state w)) = false ->
        O _ (documents_insert (newDocTitle (state w)) (newDocContent (state w))
               (teamId props) (user_id (user props)))
          = Fulfilled (Success row) ->
        ~ In (id row) (map id (documents (state w))) ->
        NoDup (map id (documents
                         (state (snd (run O (createDocument props (state w)) w)))))).
Proof.
  intros props O w doc docId Hnd.
  split; [|split].
  - intros HO. rewrite (run_updateDocument_success _ _ _ HO).
    apply map_id_update.
  - intros HO. rewrite run_deleteDocument, HO. simpl.
    apply distinct_ids_after_filter. exact Hnd.
  - intros row Hblank HO Hfresh.
    destruct (createDocument_success props O w Hblank HO) as (-> & _).
    simpl. constructor; assumption.
Qed.

Lemma distinct_identifiers_preserved_witness :
  let w := with_documents [doc_b; doc_a] initial_world in
  NoDup (map id (documents
                   (state (snd (run (succeed_all alice)
                                  (deleteDocument (state w) (lit "a")) w))))).
Proof.
  refine (proj1 (proj2 (distinct_identifiers_preserved sample_props
                          (succeed_all alice)
                          (with_documents [doc_b; doc_a] initial_world)
                          doc_a (lit "a") _)) eq_refl).
  simpl. repeat constructor; simpl; intuition discriminate.
Defined.

(** ** Summarize: the gate and the preview *)

Lemma firstn_length_min {T} (n : nat) (l : list T) :
  List.length (firstn n l) = Nat.min n (List.length l).
Proof. apply length_firstn. Qed.

(** X6. When the gate is open and [ai-summarize] answers with a summary
    text, the notification shows the first 150 code units of the text
    followed by three dots: the dots are appended to a shorter text too, and
    the description is never longer than 153 code units. *)
Theorem summary_preview_bounded :
  forall (O : Oracle) (doc : Document) (w : World) (u : Response User)
         (o : Response (option OwnerPrivilege)) (text : str),
    O _ auth_getUser = Fulfilled u ->
    O _ (owner_privileges_maybeSingle (email_or_empty (data u))) = Fulfilled o ->
    gate_open O o ->
    O _ (invoke_ai_summarize (content doc) (title doc))
      = Fulfilled (Success (Some {| summary := Some text |})) ->
    exists t,
      toasts (snd (run O (generateSummary doc) w)) = toasts w ++ [t] /\
      toast_title t = lit "AI Summary Generated" /\
      description t = firstn 150 text ++ lit "..." /\
      List.length (description t) = Nat.min 150 (List.length text) + 3 /\
      List.length (description t) <= 153.
Proof.
  intros O doc w u o text Hu Ho Hgate Hs.
  exists {| toast_title := lit "AI Summary Generated";
            description := firstn 150 text ++ lit "...";
            variant := Some default |}.
  split; [apply (generateSummary_preview doc w Hu Ho Hgate Hs)|].
  split; [reflexivity|]. split; [reflexivity|].
  cbn [description].
  assert (L : List.length (firstn 150 text ++ lit "...")
              = Nat.min 150 (List.length text) + 3)
    by (rewrite length_app, firstn_length_min; reflexivity).
  split; [exact L|].
  rewrite L. pose proof (Nat.le_min_l 150 (List.length text)). lia.
Qed.

Lemma summary_preview_bounded_witness :
  exists t,
    toasts (snd (run (succeed_all alice) (generateSummary doc_a) initial_world))
    = toasts initial_world ++ [t] /\
    toast_title t = lit "AI Summary Generated" /\
    description t = firstn 150 (lit "A summary.") ++ lit "..." /\
    List.length (description t)
    = Nat.min 150 (List.length (lit "A summary.")) + 3 /\
    List.length (description t) <= 153.
Proof.
  refine (@summary_preview_bounded (succeed_all alice) doc_a initial_world
            (Success alice) (Success None) (lit "A summary.")
            eq_refl eq_refl _ eq_refl).
  right. exists (Success (Some {| subscribed := true |})).
  split; reflexivity.
Defined.

(** X7. An owner is not asked for a subscription: when the lookup comes
    back with a row, the run sends [getUser], the lookup and [ai-summarize]
    and never [check-subscription], and the one notification it shows is not
    the upsell. *)
Theorem owner_bypasses_subscription_check :
  forall (O : Oracle) (doc : Document) (w : World) (u : Response User)
         (row : OwnerPrivilege),
    O _ auth_getUser = Fulfilled u ->
    O _ (owner_privileges_maybeSingle (email_or_empty (data u)))
      = Fulfilled (Success (Some row)) ->
    let w' := snd (run O (generateSummary doc) w) in
    network w'
    = network w
      ++ [call auth_getUser;
          call (owner_privileges_maybeSingle (email_or_empty (data u)));
          call (invoke_ai_summarize (content doc) (title doc))] /\
    exists t, toasts w' = toasts w ++ [t] /\ t <> upsell.
Proof.
  intros O doc w u row Hu Ho w'. subst w'.
  unfold generateSummary. simpl. rewrite Hu. simpl. rewrite Ho. simpl.
  all_paths O; (split; [rewrite <- !app_assoc; reflexivity|]);
    eexists; (split; [reflexivity|]); discriminate.
Qed.

Lemma owner_bypasses_subscription_check_witness :
  let O := with_check_subscription not_subscribed
             (owner_table (lit "alice@example.com") (succeed_all alice)) in
  let w' := snd (run O (generateSummary doc_a) initial_world) in
  network w'
  = network initial_world
    ++ [call auth_getUser;
        call (owner_privileges_maybeSingle
                (email_or_empty (data (Success alice))));
        call (invoke_ai_summarize (content doc_a) (title doc_a))] /\
  exists t, toasts w' = toasts initial_world ++ [t] /\ t <> upsell.
Proof.
  exact (@owner_bypasses_subscription_check
           (with_check_subscription not_subscribed
              (owner_table (lit "alice@example.com") (succeed_all alice)))
           doc_a initial_world (Success alice)
           {| owner_email := lit "alice@example.com" |}
           eq_refl eq_refl).
Defined.

(** X8. Without a signed-in user, or with a user without an email, the
    owner lookup is made under the empty email: an error returned by
    [getUser] does not stop the run. *)
Theorem owner_lookup_without_email :
  forall (O : Oracle) (doc : Document) (w : World) (u : Response User),
    O _ auth_getUser = Fulfilled u ->
    (forall usr address, data u = Some usr -> email usr = Some address ->
                         address = []) ->
    exists rest,
      network (snd (run O (generateSummary doc) w))
      = network w
        ++ call auth_getUser :: call (owner_privileges_maybeSingle []) :: rest.
Proof.
  intros O doc w u Hu Hno.
  assert (E : email_or_empty (data u) = []).
  { unfold email_or_empty. destruct (data u) as [usr|]; [|reflexivity].
    destruct (email usr) as [address|] eqn:Ee; [|reflexivity].
    rewrite (Hno usr address eq_refl Ee). reflexivity. }
  unfold generateSummary. simpl. rewrite Hu. simpl. rewrite E.
  all_paths O; eexists; rewrite <- !app_assoc; simpl; reflexivity.
Qed.

Lemma owner_lookup_without_email_witness :
  exists rest,
    network (snd (run (with_getUser (Fulfilled (Failure boom))
                         (succeed_all alice))
                    (generateSummary doc_a) initial_world))
    = network initial_world
      ++ call auth_getUser :: call (owner_privileges_maybeSingle []) :: rest.
Proof.
  refine (@owner_lookup_without_email
            (with_getUser (Fulfilled (Failure boom)) (succeed_all alice))
            doc_a initial_world (Failure boom) eq_refl _).
  intros usr address H. discriminate H.
Defined.

Lemma nth_error_app_here {T} (l r : list T) (x : T) :
  nth_error (l ++ x :: r) (List.length l) = Some x.
Proof. induction l; simpl; auto. Qed.

Lemma remove_nth_app_here {T} (l r : list T) (x : T) :
  remove_nth (List.length l) (l ++ x :: r) = l ++ r.
Proof. induction l; simpl; [reflexivity | f_equal; auto]. Qed.

(** Settling the task that stands right after [before]. *)
Lemma settle_here (O : Oracle) (w : World) (before after : list Task) (t : Task) :
  settle O (List.length before) {| world := w; pending := before ++ t :: after |}
  = exec (resume t (O _ (request t)))
         {| world := w; pending := before ++ after |}.
Proof.
  unfold settle. simpl. rewrite nth_error_app_here, remove_nth_app_here.
  reflexivity.
Qed.

(** ** Handlers in flight together *)

(** X9. Two clicks on "Create Document" before the first insert is
    answered send two inserts, both built from the same render. When both
    succeed, the second answer puts its row in front of the list the render
    had: the first row, on the list after the first answer, is no longer on
    it. *)
Theorem concurrent_creates_lose_one :
  forall (props : Props) (rt : Runtime) (O1 O2 : Oracle) (row1 row2 : Document),
    let s := state (world rt) in
    let insert := documents_insert (newDocTitle s) (newDocContent s)
                    (teamId props) (user_id (user props)) in
    let n := List.length (pending rt) in
    isLoading s = false ->
    truthy (trim (newDocTitle s)) = true ->
    O1 _ insert = Fulfilled (Success row1) ->
    O2 _ insert = Fulfilled (Success row2) ->
    let rt1 := dispatch props CreateDocument_onClick rt in
    let rt2 := dispatch props CreateDocument_onClick rt1 in
    let rt3 := dispatch props (Promise_settles O1 n) rt2 in
    let rt4 := dispatch props (Promise_settles O2 n) rt3 in
    network (world rt2) = network (world rt) ++ [call insert; call insert] /\
    documents (state (world rt3)) = row1 :: documents s /\
    documents (state (world rt4)) = row2 :: documents s /\
    pending rt4 = pending rt.
Proof.
  intros props rt O1 O2 row1 row2 s insert n Hload Htitle H1 H2 rt1 rt2 rt3 rt4.
  assert (E1 : rt1 = exec (createDocument props s) rt).
  { subst rt1. unfold dispatch, handler. fold s. rewrite Hload, Htitle.
    reflexivity. }
  unfold createDocument in E1. rewrite Htitle in E1. simpl in E1.
  fold insert in E1.
  match type of E1 with context [pending rt ++ [?t]] => set (t1 := t) in * end.
  assert (E2 : rt2 = exec (createDocument props s) rt1).
  { subst rt2. unfold dispatch, handler. rewrite E1. simpl. fold s.
    rewrite Hload, Htitle. reflexivity. }
  unfold createDocument in E2. rewrite Htitle in E2. rewrite E1 in E2.
  simpl in E2. fold insert in E2. fold t1 in E2.
  rewrite <- app_assoc in E2. simpl in E2.
  assert (E3 : rt3 = exec (resume t1 (O1 _ (request t1)))
                       {| world := world rt2; pending := pending rt ++ [t1] |}).
  { subst rt3. unfold dispatch. rewrite E2. subst n. apply settle_here. }
  rewrite E2 in E3. simpl in E3. rewrite H1 in E3. simpl in E3.
  assert (E4 : rt4 = exec (resume t1 (O2 _ (request t1)))
                       {| world := world rt3; pending := pending rt ++ [] |}).
  { subst rt4. unfold dispatch. rewrite E3. subst n. apply settle_here. }
  rewrite E3 in E4. simpl in E4. rewrite H2 in E4. simpl in E4.
  rewrite E2, E3, E4. simpl.
  rewrite <- !app_assoc, app_nil_r. repeat split.
Qed.

Lemma concurrent_creates_lose_one_witness :
  let props := sample_props in
  let rt := {| world := perform (setIsLoading false)
                          (with_newDocTitle (lit "Roadmap") initial_world);
               pending := [] |} in
  let O := succeed_all alice in
  let rt2 := dispatch props CreateDocument_onClick
               (dispatch props CreateDocument_onClick rt) in
  let rt4 := dispatch props (Promise_settles O 0)
               (dispatch props (Promise_settles O 0) rt2) in
  List.length (network (world rt2)) = 2 /\
  List.length (documents (state (world rt4))) = 1.
Proof.
  pose proof (@concurrent_creates_lose_one sample_props
                {| world := perform (setIsLoading false)
                              (with_newDocTitle (lit "Roadmap") initial_world);
                   pending := [] |}
                (succeed_all alice) (succeed_all alice) _ _
                eq_refl eq_refl eq_refl eq_refl) as (Hn & _ & Hd & _).
  split.
  - exact (f_equal (@List.length Call) Hn).
  - exact (f_equal (@List.length Document) Hd).
Defined.

(** X10. The effect runs again when the team changes, and nothing ties an
    answer to the team it was asked for: when the documents of the previous
    team arrive after those of the current one, the list ends up holding the
    previous team's documents. *)
Theorem late_answer_of_previous_team :
  forall (previous current : Props) (rt : Runtime) (O O' : Oracle)
         (rows rows' : list Document),
    let n := List.length (pending rt) in
    truthy (teamId previous) = true ->
    truthy (teamId current) = true ->
    O _ (documents_select (teamId current)) = Fulfilled (Success (Some rows)) ->
    O' _ (documents_select (teamId previous))
      = Fulfilled (Success (Some rows')) ->
    let rt1 := useEffect current (useEffect previous rt) in
    let rt2 := settle O (n + 2) rt1 in
    let rt3 := settle O' n rt2 in
    network (world rt1)
    = network (world rt)
      ++ [call (documents_select (teamId previous));
          call (integrations_select (teamId previous));
          call (documents_select (teamId current));
          call (integrations_select (teamId current))] /\
    documents (state (world rt2)) = rows /\
    documents (state (world rt3)) = rows'.
Proof.
  intros previous current rt O O' rows rows' n Hp Hc HO HO' rt1 rt2 rt3.
  assert (E1 : rt1 = useEffect current (useEffect previous rt)) by reflexivity.
  unfold useEffect, loadDocuments, loadIntegrations in E1.
  rewrite Hp, Hc in E1. simpl in E1.
  rewrite <- !app_assoc in E1. simpl in E1.
  match type of E1 with
  | context [pending rt ++ [?a; ?b; ?c; ?d]] =>
      set (dp := a) in *; set (ip := b) in *;
      set (dc := c) in *; set (ic := d) in *
  end.
  assert (E2 : rt2 = exec (resume dc (O _ (request dc)))
                       {| world := world rt1;
                          pending := (pending rt ++ [dp; ip]) ++ [ic] |}).
  { subst rt2. rewrite E1.
    replace (n + 2) with (List.length (pending rt ++ [dp; ip]))
      by (rewrite length_app; reflexivity).
    replace (pending rt ++ [dp; ip; dc; ic])
      with ((pending rt ++ [dp; ip]) ++ dc :: [ic])
      by (rewrite <- app_assoc; reflexivity).
    apply settle_here. }
  rewrite E1 in E2. simpl in E2. rewrite HO in E2. simpl in E2.
  rewrite <- app_assoc in E2. simpl in E2.
  assert (E3 : rt3 = exec (resume dp (O' _ (request dp)))
                       {| world := world rt2;
                          pending := pending rt ++ [ip; ic] |}).
  { subst rt3. rewrite E2. subst n. apply settle_here. }
  rewrite E2 in E3. simpl in E3. rewrite HO' in E3. simpl in E3.
  rewrite E1, E2, E3. simpl. rewrite <- !app_assoc. repeat split.
Qed.

Lemma late_answer_of_previous_team_witness :
  let other := {| user := alice; teamId := lit "team-2" |} in
  let O := with_documents_select (fun _ => Fulfilled (Success (Some [doc_b])))
             (succeed_all alice) in
  let O' := with_documents_select (fun _ => Fulfilled (Success (Some [doc_a])))
              (succeed_all alice) in
  let rt1 := useEffect other (useEffect sample_props initial_runtime) in
  documents (state (world (settle O 2 rt1))) = [doc_b] /\
  documents (state (world (settle O' 0 (settle O 2 rt1)))) = [doc_a].
Proof.
  exact (proj2 (@late_answer_of_previous_team sample_props
                  {| user := alice; teamId := lit "team-2" |}
                  initial_runtime
                  (with_documents_select
                     (fun _ => Fulfilled (Success (Some [doc_b])))
                     (succeed_all alice))
                  (with_documents_select
                     (fun _ => Fulfilled (Success (Some [doc_a])))
                     (succeed_all alice))
                  [doc_b] [doc_a] eq_refl eq_refl eq_refl eq_refl)).
Defined.

(** ** What the handlers never do *)

Lemma In_remove_nth {T} (i : nat) (l : list T) (x : T) :
  In x (remove_nth i l) -> In x l.
Proof.
  revert i; induction l as [|y l IH]; intros [|i]; simpl; auto.
  intros [H|H]; [left; exact H | right; eapply IH; exact H].
Qed.

Section Invariant.

Variable P : Action -> Prop.
Variable Q : State -> Prop.
Hypothesis P_keeps_Q : forall a s, P a -> Q s -> Q (apply_setter a s).

Lemma exec_keeps (p : Prog unit) :
  all_actions P p ->
  forall rt,
    Q (state (world rt)) -> all_pending P rt ->
    Q (state (world (exec p rt))) /\ all_pending P (exec p rt).
Proof.
  induction 1 as [c | a k Ha Hk IH | X r k Hk IH]; intros rt HQ Hpend.
  - destruct c as [[]| |e]; simpl; split; assumption.
  - simpl. apply IH; [apply P_keeps_Q; assumption | exact Hpend].
  - simpl. split; [exact HQ|].
    intros t Ht x. simpl in Ht. apply in_app_or in Ht as [Ht | [<- | []]].
    + apply Hpend. exact Ht.
    + apply Hk.
Qed.

Lemma settle_keeps (O : Oracle) (i : nat) (rt : Runtime) :
  Q (state (world rt)) -> all_pending P rt ->
  Q (state (world (settle O i rt))) /\ all_pending P (settle O i rt).
Proof.
  intros HQ Hpend. unfold settle.
  destruct (nth_error (pending rt) i) as [t|] eqn:Ht; [|split; assumption].
  apply exec_keeps.
  - apply Hpend. eapply nth_error_In. exact Ht.
  - exact HQ.
  - intros t' Ht' x. apply Hpend. eapply In_remove_nth. exact Ht'.
Qed.

Hypothesis handlers_P :
  forall props s e p, Q s -> handler props s e = Some p -> all_actions P p.
Hypothesis loads_P :
  forall props,
    all_actions P (loadDocuments props) /\
    all_actions P (loadIntegrations props).

Lemma dispatch_keeps (props : Props) (e : UIEvent) (rt : Runtime) :
  Q (state (world rt)) -> all_pending P rt ->
  Q (state (world (dispatch props e rt))) /\
  all_pending P (dispatch props e rt).
Proof.
  intros HQ Hpend.
  assert (Hh : forall e',
             Q (state (world (match handler props (state (world rt)) e' with
                              | Some p => exec p rt
                              | None => rt
                              end))) /\
             all_pending P (match handler props (state (world rt)) e' with
                            | Some p => exec p rt
                            | None => rt
                            end)).
  { intros e'.
    destruct (handler props (state (world rt)) e') as [p|] eqn:Hp;
      [|split; assumption].
    apply exec_keeps; [eapply handlers_P; eassumption | assumption ..]. }
  destruct e; try apply Hh.
  apply settle_keeps; assumption.
Qed.

Lemma useEffect_keeps (props : Props) (rt : Runtime) :
  Q (state (world rt)) -> all_pending P rt ->
  Q (state (world (useEffect props rt))) /\
  all_pending P (useEffect props rt).
Proof.
  intros HQ Hpend. unfold useEffect.
  destruct (loads_P props) as [Hd Hi].
  destruct (exec_keeps Hd HQ Hpend) as [HQ' Hpend'].
  apply exec_keeps; assumption.
Qed.

Lemma dispatch_all_keeps (props : Props) (es : list UIEvent) :
  forall rt,
    Q (state (world rt)) -> all_pending P rt ->
    Q (state (world (dispatch_all props es rt))) /\
    all_pending P (dispatch_all props es rt).
Proof.
  unfold dispatch_all.
  induction es as [|e es IH]; simpl; intros rt HQ Hpend; [split; assumption|].
  destruct (dispatch_keeps props e HQ Hpend). apply IH; assumption.
Qed.

Hypothesis Q_initial : Q initial_state.

Lemma reachable_keeps (props : Props) (rt : Runtime) :
  reachable props rt ->
  Q (state (world rt)) /\ all_pending P rt.
Proof.
  induction 1 as [props | props e rt _ [HQ Hpend]
                  | props props' rt _ [HQ Hpend]].
  - apply useEffect_keeps; [exact Q_initial | intros t []].
  - apply dispatch_keeps; assumption.
  - destruct (eqb (teamId props) (teamId props'));
      [split; assumption | apply useEffect_keeps; assumption].
Qed.

End Invariant.

Ltac open_settled :=
  match goal with
  | x : Settled _ |- _ => destruct x; simpl in *
  end.

(** Walks a handler down every answer, leaving the actions to check. *)
Ltac walk :=
  simpl;
  repeat first
    [ apply all_actions_Done
    | apply all_actions_Do
    | apply all_actions_Await; intros ?
    | open_settled
    | open_answer ].

Lemma loads_keep_loaded (props : Props) :
  all_actions keeps_loaded (loadDocuments props) /\
  all_actions keeps_loaded (loadIntegrations props).
Proof.
  unfold loadDocuments, loadIntegrations, keeps_loaded.
  destruct (truthy (teamId props)); split; walk; discriminate.
Qed.

Lemma handlers_keep_loaded :
  (forall props s, all_actions keeps_loaded (createDocument props s)) /\
  (forall s doc, all_actions keeps_loaded (updateDocument s doc)) /\
  (forall s docId, all_actions keeps_loaded (deleteDocument s docId)) /\
  (forall doc, all_actions keeps_loaded (generateSummary doc)).
Proof.
  unfold createDocument, updateDocument, deleteDocument, generateSummary,
    keeps_loaded.
  repeat split; intros; try destruct (truthy (trim (newDocTitle s)));
    walk; discriminate.
Qed.

Lemma handlers_edit_editable :
  (forall props, all_actions edits_editable (loadDocuments props)) /\
  (forall props, all_actions edits_editable (loadIntegrations props)) /\
  (forall props s, all_actions edits_editable (createDocument props s)) /\
  (forall s doc, all_actions edits_editable (updateDocument s doc)) /\
  (forall s docId, all_actions edits_editable (deleteDocument s docId)) /\
  (forall doc, all_actions edits_editable (generateSummary doc)).
Proof.
  unfold loadDocuments, loadIntegrations, createDocument, updateDocument,
    deleteDocument, generateSummary.
  repeat split; intros;
    try destruct (truthy (teamId props));
    try destruct (truthy (trim (newDocTitle s)));
    walk; exact I.
Qed.

(** Splits the render conditions under which an event has a handler. *)
Ltac which_handler H :=
  unfold handler, card_handler in H;
  repeat match type of H with
         | context [if ?b then _ else _] => destruct b eqn:?
         | context [match ?x with _ => _ end] => destruct x eqn:?
         end;
  try discriminate H;
  injection H as <-.

Lemma dispatched_keep_loaded (props : Props) (s : State) (e : UIEvent)
    (p : Prog unit) :
  True -> handler props s e = Some p -> all_actions keeps_loaded p.
Proof.
  intros _ H. which_handler H;
    try apply handlers_keep_loaded;
    try (unfold act, skip; walk; discriminate).
Qed.

Lemma dispatched_edit_editable (props : Props) (s : State) (e : UIEvent)
    (p : Prog unit) :
  editing_editable s -> handler props s e = Some p ->
  all_actions edits_editable p.
Proof.
  intros HQ H. which_handler H;
    try apply handlers_edit_editable;
    unfold act, skip; walk; simpl; try exact I;
    match goal with
    | E : _ || is_integration ?d = false |- is_integration ?d = false =>
        apply orb_false_elim in E; apply E
    | E : editingDoc ?s = Some ?d |- is_integration ?d = false =>
        exact (HQ d E)
    end.
Qed.

Lemma keeps_loaded_stable (a : Action) (s : State) :
  keeps_loaded a -> isLoading s = false -> isLoading (apply_setter a s) = false.
Proof.
  unfold keeps_loaded. destruct a as [| | [|] | | | | | | | |]; simpl; auto.
  congruence.
Qed.

Lemma edits_editable_stable (a : Action) (s : State) :
  edits_editable a -> editing_editable s -> editing_editable (apply_setter a s).
Proof.
  unfold edits_editable, editing_editable.
  destruct a as [| | | [d'|] | | | | | | |]; simpl; auto.
  - intros H _ d E. inversion E; subst. exact H.
  - intros _ _ d E. discriminate E.
Qed.

(** X11. Once the page is drawn it stays drawn: no handler, in flight or
    started later, sets the loading state again, and neither does the effect
    when it runs again for another team. *)
Theorem loaded_page_stays_loaded :
  forall (props : Props) (rt : Runtime),
    reachable props rt ->
    isLoading (state (world rt)) = false ->
    forall (es : list UIEvent) (props' : Props),
      isLoading (state (world (dispatch_all props es rt))) = false /\
      isLoading (state (world (useEffect props'
                                 (dispatch_all props es rt)))) = false.
Proof.
  intros props rt Hreach Hloaded es props'.
  assert (Hpend : all_pending keeps_loaded rt).
  { apply (@reachable_keeps keeps_loaded (fun _ => True)
             (fun _ _ _ _ => I) dispatched_keep_loaded loads_keep_loaded I
             props rt Hreach). }
  destruct (@dispatch_all_keeps keeps_loaded (fun s => isLoading s = false)
              keeps_loaded_stable
              (fun props s e p _ => @dispatched_keep_loaded props s e p I)
              props es rt Hloaded Hpend) as [H1 H2].
  split; [exact H1|].
  apply (@useEffect_keeps keeps_loaded (fun s => isLoading s = false)
           keeps_loaded_stable loads_keep_loaded props' _ H1 H2).
Qed.

Lemma loaded_page_stays_loaded_witness :
  let rt := dispatch sample_props (Promise_settles (reject_all boom) 0)
              (useEffect sample_props initial_runtime) in
  isLoading (state (world (dispatch_all sample_props
                             [Promise_settles (reject_all boom) 0;
                              CreateFirstDocument_onClick]
                             rt))) = false.
Proof.
  refine (proj1 (@loaded_page_stays_loaded sample_props
                   (dispatch sample_props (Promise_settles (reject_all boom) 0)
                      (useEffect sample_props initial_runtime))
                   _ eq_refl
                   [Promise_settles (reject_all boom) 0;
                    CreateFirstDocument_onClick]
                   sample_props)).
  apply reachable_event, reachable_mount.
Defined.

(** ** The edit mode *)

Lemma is_editing_after_edit (s : State) (doc : Document) :
  is_editing (apply_setter (setEditingDoc (Some doc)) s) doc = true.
Proof. unfold is_editing. simpl. apply eqb_refl. Qed.

(** X13. The edit mode of a card. After Edit and typing a title and a
    content, Save sends one update with the typed title and content under
    the document's identifier; answered with success, the card holds the
    document with these two fields replaced and every other field, the
    update time included, as it was, at the same position, and the edit
    mode is closed. Cancel instead sends nothing, leaves the list alone and
    closes the edit mode. *)
Theorem edit_then_save_or_cancel :
  forall (props : Props) (rt : Runtime) (O : Oracle) (card : nat)
         (doc : Document) (v1 v2 : str),
    let s := state (world rt) in
    let edited :=
      {| id := id doc; title := Some v1; content := Some v2;
         team_id := team_id doc; owner_id := owner_id doc;
         updated_at := updated_at doc; is_integration := false |} in
    let typed := dispatch_all props
                   [Edit_onClick card; EditTitle_onChange card v1;
                    EditContent_onChange card v2] rt in
    isLoading s = false ->
    nth_error (documents s) card = Some doc ->
    is_integration doc = false ->
    is_editing s doc = false ->
    O _ (documents_update (Some v1) (Some v2) (id doc)) = Fulfilled (Success tt) ->
    (let saved := dispatch_all props
                    [Save_onClick card;
                     Promise_settles O (List.length (pending rt))] typed in
     documents (state (world saved))
     = map (fun d => if eqb (id d) (id doc) then edited else d) (documents s) /\
     nth_error (documents (state (world saved))) card = Some edited /\
     editingDoc (state (world saved)) = None /\
     network (world saved)
     = network (world rt)
       ++ [call (documents_update (Some v1) (Some v2) (id doc))] /\
     pending saved = pending rt) /\
    (let cancelled := dispatch props (CancelEdit_onClick card) typed in
     documents (state (world cancelled)) = documents s /\
     editingDoc (state (world cancelled)) = None /\
     network (world cancelled) = network (world rt) /\
     pending cancelled = pending rt).
Proof.
  intros props [[s0 ts cs ns us] P] O card doc v1 v2 s edited typed
         Hload Hcard Hint Hed HO.
  simpl in s. subst s. simpl in Hload, Hcard, Hed.
  set (rt := {| world := {| state := s0; toasts := ts; console := cs;
                            network := ns; unhandled := us |};
                pending := P |}) in *.
  set (s1 := apply_setter (setEditingDoc (Some doc)) s0).
  set (s2 := apply_setter (setEditingDoc (Some (with_title v1 doc))) s1).
  set (s3 := apply_setter (setEditingDoc (Some edited)) s2).
  set (at_state := fun st => {| world := {| state := st; toasts := ts;
                                           console := cs; network := ns;
                                           unhandled := us |};
                                pending := P |}).
  assert (E1 : dispatch props (Edit_onClick card) rt = at_state s1).
  { unfold dispatch, handler, card_handler. simpl.
    rewrite Hload, Hcard, Hed, Hint. reflexivity. }
  assert (E2 : dispatch props (EditTitle_onChange card v1) (at_state s1)
               = at_state s2).
  { unfold dispatch, handler, card_handler. simpl.
    rewrite Hload, Hcard. unfold is_editing. simpl. rewrite eqb_refl.
    reflexivity. }
  assert (E3 : dispatch props (EditContent_onChange card v2) (at_state s2)
               = at_state s3).
  { unfold dispatch, handler, card_handler. simpl.
    rewrite Hload, Hcard. unfold is_editing. simpl. rewrite eqb_refl.
    unfold s3, edited, with_content, with_title. simpl. rewrite Hint.
    reflexivity. }
  assert (Ht : typed = at_state s3).
  { subst typed. unfold dispatch_all. cbn [fold_left].
    rewrite E1, E2, E3. reflexivity. }
  rewrite Ht. clear Ht E1 E2 E3.
  split.
  - unfold dispatch_all. cbn [fold_left].
    assert (E4 : dispatch props (Save_onClick card) (at_state s3)
                 = exec (updateDocument s3 edited) (at_state s3)).
    { unfold dispatch, handler, card_handler. simpl.
      rewrite Hload, Hcard. unfold is_editing. simpl. rewrite eqb_refl.
      reflexivity. }
    rewrite E4. unfold updateDocument. simpl.
    change P with (pending rt) at 1.
    unfold dispatch. simpl pending. rewrite settle_here. simpl. rewrite HO. simpl.
    rewrite app_nil_r. repeat split.
    rewrite nth_error_map, Hcard. simpl. rewrite eqb_refl. reflexivity.
  - unfold dispatch, handler, card_handler. simpl.
    rewrite Hload, Hcard. unfold is_editing. simpl. rewrite eqb_refl. simpl.
    repeat split.
Qed.

Lemma edit_then_save_or_cancel_witness :
  let rt := {| world := perform (setIsLoading false)
                          (with_documents [doc_b; doc_a] initial_world);
               pending := [] |} in
  let saved := dispatch_all sample_props
                 [Edit_onClick 1; EditTitle_onChange 1 (lit "T");
                  EditContent_onChange 1 (lit "C"); Save_onClick 1;
                  Promise_settles (succeed_all alice) 0] rt in
  documents (state (world saved))
  = [doc_b;
     {| id := lit "a"; title := Some (lit "T"); content := Some (lit "C");
        team_id := lit "team-1"; owner_id := lit "u-1"; updated_at := None;
        is_integration := false |}] /\
  editingDoc (state (world saved)) = None.
Proof.
  pose proof (@edit_then_save_or_cancel sample_props
                {| world := perform (setIsLoading false)
                              (with_documents [doc_b; doc_a] initial_world);
                   pending := [] |}
                (succeed_all alice) 1 doc_a (lit "T") (lit "C")
                eq_refl eq_refl eq_refl eq_refl eq_refl)
    as ((Hdocs & _ & Hedit & _) & _).
  split; [exact Hdocs | exact Hedit].
Defined.

(** ** What is drawn *)

Lemma dispatch_initial (props : Props) (e : UIEvent) :
  dispatch props e initial_runtime = initial_runtime.
Proof.
  destruct e; try reflexivity.
  unfold dispatch, settle. simpl. destruct task; reflexivity.
Qed.

(** X14. Without a team the effect sends nothing and leaves nothing in
    flight, and the component shows its spinner for good: no event of the
    page, and no promise, changes anything until the team changes. *)
Theorem no_team_spinner_stays :
  forall (props : Props) (es : list UIEvent),
    truthy (teamId props) = false ->
    useEffect props initial_runtime = initial_runtime /\
    dispatch_all props es (useEffect props initial_runtime) = initial_runtime /\
    render (state (world (dispatch_all props es
                            (useEffect props initial_runtime)))) = LoadingView.
Proof.
  intros props es Ht.
  assert (E : useEffect props initial_runtime = initial_runtime).
  { unfold useEffect, loadDocuments, loadIntegrations. rewrite Ht.
    reflexivity. }
  assert (D : dispatch_all props es initial_runtime = initial_runtime).
  { unfold dispatch_all. induction es as [|e es IH]; simpl; [reflexivity|].
    rewrite dispatch_initial. exact IH. }
  rewrite E, D. repeat split.
Qed.

Lemma no_team_spinner_stays_witness :
  let props := {| user := alice; teamId := [] |} in
  dispatch_all props [CreateFirstDocument_onClick;
                      Promise_settles (succeed_all alice) 0]
    (useEffect props initial_runtime)
  = initial_runtime.
Proof.
  exact (proj1 (proj2 (@no_team_spinner_stays
                         {| user := alice; teamId := [] |}
                         [CreateFirstDocument_onClick;
                          Promise_settles (succeed_all alice) 0]
                         eq_refl))).
Defined.

Lemma filter_none {T} (p : T -> bool) (l : list T) :
  (forall x, In x l -> p x = false) -> filter p l = [].
Proof.
  induction l as [|x l IH]; simpl; intros H; [reflexivity|].
  rewrite (H x (or_introl eq_refl)). apply IH. intros y Hy. apply H. auto.
Qed.

(** X15. The integrations tab shows its "No integrations yet" card exactly
    when the list is empty. A list that is not empty but holds no
    integration of an allow-listed type gives an empty grid, not the
    card. *)
Theorem integrations_tab_cases :
  forall (s : State),
    (integrations_tab s = NoIntegrationsYet <-> integrations s = []) /\
    (integrations s <> [] ->
     (forall i, In i (integrations s) ->
                includes allow_list (integration_type i) = false) ->
     integrations_tab s = IntegrationsGrid []).
Proof.
  intros s. unfold integrations_tab, rendered_integrations.
  destruct (integrations s) as [|i l] eqn:E; split.
  - split; reflexivity.
  - intros H; contradiction H; reflexivity.
  - split; discriminate.
  - intros _ Hnone. rewrite (filter_none _ _ Hnone). reflexivity.
Qed.

Lemma integrations_tab_cases_witness :
  integrations_tab
    (with_integrations
       [{| integration_id := lit "1"; integration_team_id := lit "team-1";
           integration_type := lit "slack" |}]
       initial_state)
  = IntegrationsGrid [].
Proof.
  refine (proj2 (integrations_tab_cases _) _ _).
  - discriminate.
  - intros i [<- | []]. reflexivity.
Defined.

Lemma replace_underscore_cons (c : N) (s : str) :
  replace (c :: s) (lit "_") (lit " ")
  = if N.eqb underscore c then 32%N :: s
    else c :: replace s (lit "_") (lit " ").
Proof.
  unfold underscore.
  change (replace (c :: s) (lit "_") (lit " "))
    with (if N.eqb 95 c && true then 32%N :: s
          else c :: replace s (lit "_") (lit " ")).
  rewrite andb_true_r. reflexivity.
Qed.

Lemma replace_underscore_first (a b : str) :
  ~ In underscore a ->
  replace (a ++ underscore :: b) (lit "_") (lit " ") = a ++ 32%N :: b.
Proof.
  induction a as [|c a IH]; intros Hnot.
  - simpl app. rewrite replace_underscore_cons, N.eqb_refl. reflexivity.
  - simpl app. rewrite replace_underscore_cons.
    destruct (N.eqb underscore c) eqn:E.
    + apply N.eqb_eq in E. exfalso. apply Hnot. left. symmetry. exact E.
    + f_equal. apply IH. intros H. apply Hnot. right. exact H.
Qed.

Lemma replace_underscore_absent (s : str) :
  ~ In underscore s -> replace s (lit "_") (lit " ") = s.
Proof.
  induction s as [|c s IH]; intros Hnot; [reflexivity|].
  rewrite replace_underscore_cons.
  destruct (N.eqb underscore c) eqn:E.
  - apply N.eqb_eq in E. exfalso. apply Hnot. left. symmetry. exact E.
  - f_equal. apply IH. intros H. apply Hnot. right. exact H.
Qed.

Lemma replace_underscore_count (s : str) :
  List.length (replace s (lit "_") (lit " ")) = List.length s /\
  count_unit underscore (replace s (lit "_") (lit " "))
  = pred (count_unit underscore s).
Proof.
  unfold count_unit.
  induction s as [|c s [IHl IHc]]; [split; reflexivity|].
  rewrite replace_underscore_cons.
  destruct (N.eqb underscore c) eqn:E; cbn [filter List.length]; rewrite E.
  - change (N.eqb underscore 32) with false. split; reflexivity.
  - cbn [List.length]. rewrite IHl, IHc. split; reflexivity.
Qed.

(** X16. The viewer's description shows the content's type with its first
    underscore, and only the first, turned into a space: a type without an
    underscore is shown as it is, the length never changes, and a type with
    several underscores keeps all but one. *)
Theorem viewer_label_first_underscore_only :
  forall (c : ViewedContent),
    (forall a b,
        viewed_type c = a ++ underscore :: b -> ~ In underscore a ->
        viewer_type_label c = a ++ 32%N :: b) /\
    (~ In underscore (viewed_type c) -> viewer_type_label c = viewed_type c) /\
    List.length (viewer_type_label c) = List.length (viewed_type c) /\
    count_unit underscore (viewer_type_label c)
    = pred (count_unit underscore (viewed_type c)).
Proof.
  intros c. unfold viewer_type_label.
  split; [|split; [|apply replace_underscore_count]].
  - intros a b -> Hnot. apply replace_underscore_first. exact Hnot.
  - apply replace_underscore_absent.
Qed.

Lemma viewer_label_first_underscore_only_witness :
  viewer_type_label
    {| viewed_title := lit "Spec"; viewed_source := lit "Drive";
       viewed_type := lit "google_drive_file"; viewed_content := [];
       viewed_url := None |}
  = lit "google drive_file".
Proof.
  refine (proj1 (viewer_label_first_underscore_only
                   {| viewed_title := lit "Spec"; viewed_source := lit "Drive";
                      viewed_type := lit "google_drive_file";
                      viewed_content := []; viewed_url := None |})
            (lit "google") (lit "drive_file") eq_refl _).
  simpl. unfold underscore. intuition discriminate.
Defined.

(** * Further properties of the session observer and the routes *)

Lemma perform_all_callback (l : list AppContent.Action) (w : AppContent.World) :
  AppContent.phase (AppContent.perform_all l w) = AppContent.phase w /\
  AppContent.listener (AppContent.perform_all l w) = AppContent.listener w /\
  AppContent.getSession_pending (AppContent.perform_all l w)
  = AppContent.getSession_pending w.
Proof.
  unfold AppContent.perform_all.
  revert w; induction l as [|a l IH]; intros w; simpl; [repeat split|].
  destruct (IH (AppContent.perform w a)) as (H1 & H2 & H3).
  rewrite H1, H2, H3. repeat split.
Qed.

(** What either callback leaves in the three cells. *)
Lemma callback_state (session : option Session) (w : AppContent.World) :
  AppContent.state (AppContent.perform_all (AppContent.auth_listener session) w)
  = {| AppContent.user := AppContent.user_of session;
       AppContent.session := session;
       AppContent.isLoading := false |}.
Proof. reflexivity. Qed.

Lemma step_state (w : AppContent.World) (e : AppContent.Event) :
  AppContent.state (AppContent.step w e) = AppContent.state w \/
  exists session,
    AppContent.state (AppContent.step w e)
    = {| AppContent.user := AppContent.user_of session;
         AppContent.session := session;
         AppContent.isLoading := false |}.
Proof.
  destruct e as [|session|[r|err]|]; simpl.
  - destruct (AppContent.phase w); left; reflexivity.
  - destruct (AppContent.listener w); [right; exists session|left];
      reflexivity.
  - destruct (AppContent.getSession_pending w);
      [right; exists (flatten (data r))|left]; reflexivity.
  - destruct (AppContent.getSession_pending w); left; reflexivity.
  - destruct (AppContent.phase w); left; reflexivity.
Qed.

Lemma steps_app (es es' : list AppContent.Event) (w : AppContent.World) :
  AppContent.steps (es ++ es') w = AppContent.steps es' (AppContent.steps es w).
Proof. unfold AppContent.steps. apply fold_left_app. Qed.

Lemma steps_state (es : list AppContent.Event) :
  forall w,
    AppContent.state (AppContent.steps es w) = AppContent.state w \/
    exists session,
      AppContent.state (AppContent.steps es w)
      = {| AppContent.user := AppContent.user_of session;
           AppContent.session := session;
           AppContent.isLoading := false |}.
Proof.
  induction es as [|e es IH] using rev_ind; intros w; [left; reflexivity|].
  rewrite steps_app. simpl.
  destruct (step_state (AppContent.steps es w) e) as [E | [session E]].
  - rewrite E. apply IH.
  - right. exists session. exact E.
Qed.

Lemma user_cell_follows_session (es : list AppContent.Event) :
  let s := AppContent.state (AppContent.steps es AppContent.initial_world) in
  AppContent.user s = AppContent.user_of (AppContent.session s).
Proof.
  intros s.
  destruct (steps_state es AppContent.initial_world) as [E | [session E]];
    fold s in E; rewrite E; reflexivity.
Qed.

(** X17. After any sequence of events the user cell is the user of the
    session cell; while the component is loading the two are still empty;
    and once the loading state has ended no event brings it back. *)
Theorem session_cells_in_step :
  forall (es es' : list AppContent.Event),
    let s := AppContent.state (AppContent.steps es AppContent.initial_world) in
    AppContent.user s = AppContent.user_of (AppContent.session s) /\
    (AppContent.isLoading s = true -> s = AppContent.initial_state) /\
    (AppContent.isLoading s = false ->
     AppContent.isLoading
       (AppContent.state (AppContent.steps (es ++ es') AppContent.initial_world))
     = false).
Proof.
  intros es es' s.
  destruct (steps_state es AppContent.initial_world) as [E | [session E]];
    fold s in E.
  - rewrite E. simpl. repeat split. discriminate.
  - split; [rewrite E; reflexivity|]. split; [rewrite E; discriminate|].
    intros _. rewrite steps_app.
    destruct (steps_state es' (AppContent.steps es AppContent.initial_world))
      as [E' | [session' E']]; rewrite E'; [fold s; rewrite E|]; reflexivity.
Qed.

Lemma session_cells_in_step_witness :
  AppContent.isLoading
    (AppContent.state
       (AppContent.steps
          ([AppContent.Mount; AppContent.AuthStateChange (Some alice_session)]
           ++ [AppContent.GetSessionSettled (Rejected boom);
               AppContent.Unmount])
          AppContent.initial_world))
  = false.
Proof.
  exact (proj2 (proj2 (session_cells_in_step
                         [AppContent.Mount;
                          AppContent.AuthStateChange (Some alice_session)]
                         [AppContent.GetSessionSettled (Rejected boom);
                          AppContent.Unmount]))
           eq_refl).
Defined.

Lemma step_without_callback (w : AppContent.World) (e : AppContent.Event) :
  runs_no_callback e ->
  AppContent.state (AppContent.step w e) = AppContent.state w.
Proof.
  destruct e as [|session|[r|err]|]; simpl; intros H; try contradiction.
  - destruct (AppContent.phase w); reflexivity.
  - destruct (AppContent.getSession_pending w); reflexivity.
  - destruct (AppContent.phase w); reflexivity.
Qed.

(** X18. When the identity service never answers with a session, the
    [getSession] promise being rejected and no auth-state change arriving,
    the three cells keep their initial values and the application shows its
    spinner: no failure path ends the loading state. *)
Theorem rejected_session_keeps_loading :
  forall (es : list AppContent.Event),
    Forall runs_no_callback es ->
    AppContent.state (AppContent.steps es AppContent.initial_world)
    = AppContent.initial_state /\
    Routes.render (AppContent.state
                     (AppContent.steps es AppContent.initial_world))
    = Routes.LoadingSpinner.
Proof.
  intros es Hes.
  assert (E : forall w,
             AppContent.state (AppContent.steps es w) = AppContent.state w).
  { unfold AppContent.steps.
    induction Hes as [|e es He _ IH]; intros w; simpl; [reflexivity|].
    rewrite IH. apply step_without_callback. exact He. }
  rewrite E. split; reflexivity.
Qed.

Lemma rejected_session_keeps_loading_witness :
  Routes.render
    (AppContent.state
       (AppContent.steps
          [AppContent.Mount; AppContent.GetSessionSettled (Rejected boom)]
          AppContent.initial_world))
  = Routes.LoadingSpinner.
Proof.
  refine (proj2 (@rejected_session_keeps_loading
                   [AppContent.Mount;
                    AppContent.GetSessionSettled (Rejected boom)] _)).
  repeat constructor.
Defined.

(** X19. The route table after any sequence of events. A page that takes
    a user is handed the user of the current session. Without a user every
    route behind the sign-in leads to the sign-in page and no route to a
    page that takes a user; with a user no route leads to the sign-in page,
    [/auth] included. *)
Theorem routes_follow_session :
  forall (es : list AppContent.Event) (path : string) (page : Routes.Page),
    let s := AppContent.state (AppContent.steps es AppContent.initial_world) in
    In (path, page) (Routes.routes (AppContent.user s)) ->
    (forall u, Routes.page_user page = Some u ->
               AppContent.user_of (AppContent.session s) = Some u) /\
    (AppContent.user s = None ->
     Routes.page_user page = None /\
     (In path Routes.gated -> page = Routes.AuthPage)) /\
    (AppContent.user s <> None -> page <> Routes.AuthPage).
Proof.
  intros es path page s Hin.
  pose proof (user_cell_follows_session es) as Hsync. simpl in Hsync.
  fold s in Hsync.
  rewrite <- Hsync.
  destruct (AppContent.user s) as [u|]; simpl in Hin;
    repeat (destruct Hin as [Hin | Hin];
            [injection Hin as <- <-; simpl;
             (split; [intros u' E; congruence|]);
             (split; [intros E; try discriminate E;
                      (split; [reflexivity|]);
                      intros G; simpl in G; try reflexivity;
                      exfalso; intuition discriminate
                     |intros E; try discriminate; congruence])
            |]);
    contradiction.
Qed.

Lemma routes_follow_session_witness :
  let s := AppContent.state
             (AppContent.steps
                [AppContent.Mount; AppContent.AuthStateChange (Some alice_session)]
                AppContent.initial_world) in
  AppContent.user_of (AppContent.session s) = Some alice /\
  Routes.Dashboard alice <> Routes.AuthPage.
Proof.
  pose proof (@routes_follow_session
                [AppContent.Mount; AppContent.AuthStateChange (Some alice_session)]
                "/auth"%string (Routes.Dashboard alice)) as H.
  simpl in H.
  assert (Hin : In ("/auth"%string, Routes.Dashboard alice)
                   (Routes.routes (Some alice)))
    by (simpl; do 12 right; left; reflexivity).
  destruct (H Hin) as (H1 & _ & H3).
  split; [exact (H1 alice eq_refl) | apply H3; discriminate].
Defined.

(** X20. Each callback overwrites the three cells with its own session, so
    the later one decides. If the existing session arrives after the
    listener has reported a sign-out, the user of that session is back in
    the cells and the gated routes lead to the user's pages; in the other
    order the user is gone. *)
Theorem later_callback_decides :
  forall (w : AppContent.World) (sess : Session),
    AppContent.listener w = true ->
    AppContent.getSession_pending w = true ->
    let existing := AppContent.GetSessionSettled (Fulfilled (Success (Some sess))) in
    let signed_out := AppContent.AuthStateChange None in
    let late := AppContent.state (AppContent.steps [signed_out; existing] w) in
    let early := AppContent.state (AppContent.steps [existing; signed_out] w) in
    late = {| AppContent.user := Some (session_user sess);
              AppContent.session := Some sess;
              AppContent.isLoading := false |} /\
    In ("/documents"%string, Routes.DocumentsPage (session_user sess))
       (Routes.routes (AppContent.user late)) /\
    early = {| AppContent.user := None; AppContent.session := None;
               AppContent.isLoading := false |} /\
    In ("/documents"%string, Routes.AuthPage)
       (Routes.routes (AppContent.user early)).
Proof.
  intros w sess Hl Hp existing signed_out late early.
  assert (El : late = {| AppContent.user := Some (session_user sess);
                         AppContent.session := Some sess;
                         AppContent.isLoading := false |}).
  { subst late. simpl. rewrite Hl. simpl. rewrite Hp. reflexivity. }
  assert (Ee : early = {| AppContent.user := None; AppContent.session := None;
                          AppContent.isLoading := false |}).
  { subst early. simpl. rewrite Hp. simpl. rewrite Hl. reflexivity. }
  rewrite El, Ee. simpl.
  split; [reflexivity|]. split; [do 14 right; left; reflexivity|].
  split; [reflexivity|]. do 14 right; left; reflexivity.
Qed.

Lemma later_callback_decides_witness :
  AppContent.state
    (AppContent.steps
       [AppContent.AuthStateChange None;
        AppContent.GetSessionSettled (Fulfilled (Success (Some alice_session)))]
       (AppContent.step AppContent.initial_world AppContent.Mount))
  = {| AppContent.user := Some alice; AppContent.session := Some alice_session;
       AppContent.isLoading := false |}.
Proof.
  exact (proj1 (@later_callback_decides
                  (AppContent.step AppContent.initial_world AppContent.Mount)
                  alice_session eq_refl eq_refl)).
Defined.

(** * One notification per action *)

(** X21. Whatever the backend answers, a create with a title that is not
    blank, an update, a delete and a summarize each show exactly one
    notification. A summarize run sends at most four calls, and
    [ai-summarize] at most once. *)
Theorem one_notification_per_action :
  forall (O : Oracle) (props : Props) (s : State) (doc : Document)
         (docId : str) (w : World),
    (truthy (trim (newDocTitle s)) = true ->
     exists t, toasts (snd (run O (createDocument props s) w)) = toasts w ++ [t]) /\
    (exists t, toasts (snd (run O (updateDocument s doc) w)) = toasts w ++ [t]) /\
    (exists t, toasts (snd (run O (deleteDocument s docId) w)) = toasts w ++ [t]) /\
    (exists t, toasts (snd (run O (generateSummary doc) w)) = toasts w ++ [t]) /\
    List.length (network (snd (run O (generateSummary doc) w)))
    <= List.length (network w) + 4 /\
    List.length (filter is_ai_summarize
                   (network (snd (run O (generateSummary doc) w))))
    <= List.length (filter is_ai_summarize (network w)) + 1.
Proof.
  intros O props s doc docId w.
  split; [|split; [|split; [|split; [|split]]]].
  - intros Ht. unfold createDocument. rewrite Ht. simpl.
    all_paths O; eexists; reflexivity.
  - unfold updateDocument. simpl. all_paths O; eexists; reflexivity.
  - unfold deleteDocument. simpl. all_paths O; eexists; reflexivity.
  - unfold generateSummary. simpl. all_paths O; eexists; reflexivity.
  - unfold generateSummary. simpl.
    all_paths O; rewrite ?length_app; simpl; lia.
  - unfold generateSummary. simpl.
    all_paths O; rewrite ?filter_app, ?length_app; simpl; lia.
Qed.

Lemma one_notification_per_action_witness :
  exists t,
    toasts (snd (run (reject_all boom)
                   (createDocument sample_props
                      (state (with_newDocTitle (lit "Roadmap") initial_world)))
                   initial_world))
    = toasts initial_world ++ [t].
Proof.
  exact (proj1 (one_notification_per_action (reject_all boom) sample_props
                  (state (with_newDocTitle (lit "Roadmap") initial_world))
                  doc_a (id doc_a) initial_world)
           eq_refl).
Defined.

(** * The session observer's cells *)











(** * Delete, for every list *)

Lemma count_id_none (docId : str) (l : list Document) :
  count_id docId l = 0 -> forall x, In x l -> id x <> docId.
Proof.
  unfold count_id. induction l as [|y l IH]; simpl; [intros _ x []|].
  destruct (eqb (id y) docId) eqn:E; simpl; [discriminate|].
  intros H x [<- | Hx]; [apply eqb_neq; exact E | apply IH; assumption].
Qed.

Lemma count_id_removed (docId : str) (l : list Document) :
  List.length l
  = List.length (filter (fun d => negb (eqb (id d) docId)) l)
    + count_id docId l.
Proof.
  unfold count_id. induction l as [|y l IH]; simpl; [reflexivity|].
  destruct (eqb (id y) docId); simpl; rewrite IH; lia.
Qed.

Lemma count_id_single (docId : str) (l : list Document) :
  count_id docId l = 1 ->
  exists before d after,
    l = before ++ d :: after /\ id d = docId /\
    filter (fun x => negb (eqb (id x) docId)) l = before ++ after.
Proof.
  induction l as [|y l IH]; [discriminate|].
  unfold count_id. simpl.
  destruct (eqb (id y) docId) eqn:E; simpl; intros H.
  - exists [], y, l. split; [reflexivity|].
    split; [apply eqb_eq; exact E|].
    apply filter_other_ids. apply count_id_none.
    unfold count_id. injection H as H. exact H.
  - destruct (IH H) as (before & d & after & -> & Hid & Hf).
    exists (y :: before), d, after. simpl. rewrite Hf. repeat split.
    exact Hid.
Qed.

(** C5. For every list and every identifier, a successful delete leaves
    the entries whose identifier differs, in their order, and removes every
    entry whose identifier matches: as many entries as carry the identifier,
    and exactly one, with the others kept around it, when exactly one does.
    Deleting the same identifier again, whatever the backend answers, leaves
    every state cell as it was; when the backend answers with an error, the
    error's message is shown. *)
Theorem deleteDocument_removes_matching :
  forall (O O' : Oracle) (w : World) (docId : str),
    O _ (documents_delete docId) = Fulfilled (Success tt) ->
    let docs := documents (state w) in
    let w1 := snd (run O (deleteDocument (state w) docId) w) in
    let w2 := snd (run O' (deleteDocument (state w1) docId) w1) in
    documents (state w1) = filter (fun d => negb (eqb (id d) docId)) docs /\
    (forall x, In x (documents (state w1)) <-> In x docs /\ id x <> docId) /\
    List.length docs = List.length (documents (state w1)) + count_id docId docs /\
    (count_id docId docs = 1 ->
     exists before d after,
       docs = before ++ d :: after /\ id d = docId /\
       documents (state w1) = before ++ after) /\
    state w2 = state w1 /\
    (forall e, O' _ (documents_delete docId) = Fulfilled (Failure e) ->
       toasts w2 = toasts w1 ++ [error_toast "Error deleting document" e]).
Proof.
  intros O O' w docId HO docs w1 w2.
  assert (E1 : documents (state w1)
               = filter (fun d => negb (eqb (id d) docId)) docs).
  { subst w1. rewrite run_deleteDocument, HO. reflexivity. }
  split; [exact E1|]. split; [|split; [|split; [|split]]].
  - intros x. rewrite E1, filter_In, negb_true_iff, eqb_neq. reflexivity.
  - rewrite E1. apply count_id_removed.
  - intros Hone. rewrite E1. apply count_id_single. exact Hone.
  - subst w2. rewrite run_deleteDocument.
    destruct (O' _ (documents_delete docId)) as [[u|e]|e]; simpl;
      try reflexivity.
    rewrite filter_other_ids; [apply apply_setDocuments_same|].
    rewrite E1. apply filter_drops_id.
  - intros e He. subst w2. rewrite run_deleteDocument, He. reflexivity.
Qed.

Lemma deleteDocument_removes_matching_witness :
  let w := with_documents [doc_b; doc_a] initial_world in
  let w1 := snd (run (succeed_all alice) (deleteDocument (state w) (lit "a")) w) in
  documents (state w1) = [doc_b] /\
  exists before d after,
    documents (state w) = before ++ d :: after /\ id d = lit "a" /\
    documents (state w1) = before ++ after.
Proof.
  pose proof (@deleteDocument_removes_matching (succeed_all alice)
                (reject_all boom)
                (with_documents [doc_b; doc_a] initial_world) (lit "a")
                eq_refl) as (Hf & _ & _ & Hone & _).
  split; [exact Hf | exact (Hone eq_refl)].
Defined.

(** Against C5 as worded: the backend answers the load with two rows under
    the identifier "a"; the page draws three cards; one click on the first
    card's Delete, answered with success, sends one delete and takes two
    entries off the list. *)
Lemma delete_removes_two_entries :
  let page := dispatch sample_props
                (Promise_settles (serving [doc_a; doc_b; doc_a']) 0)
                (useEffect sample_props initial_runtime) in
  let clicked := dispatch sample_props (Delete_onClick 0) page in
  let deleted := dispatch sample_props
                   (Promise_settles (succeed_all alice) 1) clicked in
  reachable sample_props deleted /\
  documents (state (world page)) = [doc_a; doc_b; doc_a'] /\
  network (world deleted)
  = network (world page) ++ [call (documents_delete (lit "a"))] /\
  documents (state (world deleted)) = [doc_b] /\
  List.length (documents (state (world deleted))) + 2
  = List.length (documents (state (world page))).
Proof.
  split; [do 3 apply reachable_event; apply reachable_mount|].
  repeat split.
Qed.

(** * The summarize cell on the drawn page *)






(** * A delete undone by an update in flight *)



(** * What the integration flag guards *)

(** X12. The integration flag guards the three icon buttons of a card and
    nothing else. On every page that can be reached, a click on Edit,
    Summarize or Delete of a flagged document's card changes nothing and
    sends nothing, and the document held in the edit mode is not a flagged
    one. But a card is in the edit mode when its identifier is the edited
    document's, whatever its flag: on such a card Save sends the update of
    the edited document under the card's identifier and, on success, the
    entry of the card, flagged or not, is replaced by the edited
    document. *)
Theorem integration_flag_guards :
  forall (props : Props) (rt : Runtime),
    reachable props rt ->
    let s := state (world rt) in
    (forall d, editingDoc s = Some d -> is_integration d = false) /\
    (forall card doc,
        nth_error (documents s) card = Some doc ->
        is_integration doc = true ->
        dispatch props (Edit_onClick card) rt = rt /\
        dispatch props (Summarize_onClick card) rt = rt /\
        dispatch props (Delete_onClick card) rt = rt) /\
    (forall card doc editing (O : Oracle),
        isLoading s = false ->
        nth_error (documents s) card = Some doc ->
        editingDoc s = Some editing ->
        id editing = id doc ->
        O _ (documents_update (title editing) (content editing) (id doc))
          = Fulfilled (Success tt) ->
        let saved := dispatch props
                       (Promise_settles O (List.length (pending rt)))
                       (dispatch props (Save_onClick card) rt) in
        network (world saved)
        = network (world rt)
          ++ [call (documents_update (title editing) (content editing)
                      (id doc))] /\
        nth_error (documents (state (world saved))) card = Some editing /\
        is_integration editing = false).
Proof.
  intros props rt Hreach s.
  assert (HQ : editing_editable s).
  { assert (Hinit : editing_editable initial_state)
      by (intros d H; discriminate H).
    apply (@reachable_keeps edits_editable editing_editable
             edits_editable_stable dispatched_edit_editable
             (fun p => conj (proj1 handlers_edit_editable p)
                            (proj1 (proj2 handlers_edit_editable) p))
             Hinit props rt Hreach). }
  split; [exact HQ|]. split.
  - intros card doc Hcard Hint. unfold dispatch, handler, card_handler.
    fold s. rewrite Hcard. unfold summarize_button. simpl.
    rewrite Hint, !orb_true_r.
    destruct (isLoading s); repeat split.
  - intros card doc editing O Hload Hcard Hedit Hid HO saved.
    assert (Es : dispatch props (Save_onClick card) rt
                 = exec (updateDocument s editing) rt).
    { unfold dispatch, handler, card_handler. fold s.
      rewrite Hload, Hcard, Hedit. unfold is_editing. rewrite Hedit, Hid,
        eqb_refl. reflexivity. }
    unfold saved. rewrite Es. unfold updateDocument. simpl. rewrite Hid.
    unfold dispatch. rewrite settle_here. simpl. rewrite HO. simpl.
    split; [reflexivity|]. split; [|apply HQ; exact Hedit].
    fold s. rewrite nth_error_map, Hcard. simpl. rewrite eqb_refl.
    reflexivity.
Qed.

Lemma integration_flag_guards_witness :
  let loaded := dispatch sample_props (Promise_settles (serving [doc_a]) 0)
                  (useEffect sample_props initial_runtime) in
  let editing := dispatch sample_props (Edit_onClick 0) loaded in
  let page := dispatch other_team
                (Promise_settles (serving [doc_a_imported]) 1)
                (useEffect other_team editing) in
  let saved := dispatch other_team (Promise_settles (succeed_all alice) 2)
                 (dispatch other_team (Save_onClick 0) page) in
  documents (state (world page)) = [doc_a_imported] /\
  dispatch other_team (Delete_onClick 0) page = page /\
  nth_error (documents (state (world saved))) 0 = Some doc_a.
Proof.
  assert (Hreach : reachable other_team
                     (dispatch other_team
                        (Promise_settles (serving [doc_a_imported]) 1)
                        (useEffect other_team
                           (dispatch sample_props (Edit_onClick 0)
                              (dispatch sample_props
                                 (Promise_settles (serving [doc_a]) 0)
                                 (useEffect sample_props initial_runtime)))))).
  { apply reachable_event.
    exact (reachable_props other_team
             (reachable_event (Edit_onClick 0)
                (reachable_event (Promise_settles (serving [doc_a]) 0)
                   (reachable_mount sample_props)))). }
  destruct (integration_flag_guards Hreach) as (_ & Hguard & Hsave).
  split; [reflexivity|].
  split; [exact (proj2 (proj2 (Hguard 0 doc_a_imported eq_refl eq_refl)))|].
  exact (proj1 (proj2 (Hsave 0 doc_a_imported doc_a (succeed_all alice)
                         eq_refl eq_refl eq_refl eq_refl eq_refl))).
Defined.
